(** * StockDownloader: the synchronization planner and its collaborators

    A shallow embedding of [stockdownloader.py].  Dates are day numbers
    (days since 1970-01-01), timestamps are seconds since the epoch in UTC,
    tickers are strings.  The NYSE calendar, the ArangoDB collection and the
    provider's response are explicit values passed to the functions that the
    source reads from globals or from the network. *)

From Stdlib Require Import ZArith List Ascii String Bool Lia PrimFloat Sorted.
Import ListNotations.
Open Scope Z_scope.

(** ** Exceptions and results *)

Inductive exn : Type :=
| IndexError
| KeyError
| TypeError
| DocumentInsertError.

Inductive result (A : Type) : Type :=
| Ok (a : A)
| Raise (e : exn).

Arguments Ok {A} a.
Arguments Raise {A} e.

Definition bind {A B : Type} (m : result A) (k : A -> result B) : result B :=
  match m with
  | Ok a => k a
  | Raise e => Raise e
  end.

Notation "x <- m ;; k" := (bind m (fun x => k))
  (at level 61, m at next level, right associativity).

(** ** Civil dates *)

Module Civil.

Definition seconds_per_day : Z := 86400.

(** Day number of the proleptic Gregorian date [y]-[m]-[d]. *)
Definition days_from_civil (y m d : Z) : Z :=
  let y' := if m <=? 2 then y - 1 else y in
  let era := y' / 400 in
  let yoe := y' - era * 400 in
  let mp := (m + 9) mod 12 in
  let doy := (153 * mp + 2) / 5 + d - 1 in
  let doe := yoe * 365 + yoe / 4 - yoe / 100 + doy in
  era * 146097 + doe - 719468.

(** The [.year] attribute of the date with day number [z]. *)
Definition year_of (z : Z) : Z :=
  let z' := z + 719468 in
  let era := z' / 146097 in
  let doe := z' - era * 146097 in
  let yoe := (doe - doe / 1460 + doe / 36524 - doe / 146096) / 365 in
  let doy := doe - (365 * yoe + yoe / 4 - yoe / 100) in
  let mp := (5 * doy + 2) / 153 in
  let m := if mp <? 10 then mp + 3 else mp - 9 in
  let y := yoe + era * 400 in
  if m <=? 2 then y + 1 else y.

(** Monday is 0, Sunday is 6; 1970-01-01 was a Thursday. *)
Definition weekday (d : Z) : Z := (d + 3) mod 7.

Definition midnight (d : Z) : Z := seconds_per_day * d.

(** The calendar day a timestamp falls on ([normalize]). *)
Definition date_of (t : Z) : Z := t / seconds_per_day.

(** January 1st of the year the instant [t] falls in:
    [datetime(t.year, 1, 1)]. *)
Definition new_year (t : Z) : Z := days_from_civil (year_of (date_of t)) 1 1.

(** A wall-clock instant of a given day. *)
Definition at_time (d h mi : Z) : Z := midnight d + 3600 * h + 60 * mi.

End Civil.
Import Civil.

(** ** Timestamps with the missing value *)

Inductive Timestamp : Type :=
| Ts (seconds : Z)
| NaT.

(** [a < b] on pandas timestamps: every comparison with [NaT] is false. *)
Definition ts_lt (a b : Timestamp) : bool :=
  match a, b with
  | Ts x, Ts y => x <? y
  | _, _ => false
  end.

(** [a > b] on pandas timestamps. *)
Definition ts_gt (a b : Timestamp) : bool := ts_lt b a.

(** ** Sequences indexed the Python way *)

(** [l[-k]] for [k >= 1]: an [IndexError] when the list is shorter. *)
Definition index_neg {A : Type} (l : list A) (k : nat) : result A :=
  if (List.length l <? k)%nat then Raise IndexError
  else match nth_error l (List.length l - k) with
       | Some a => Ok a
       | None => Raise IndexError
       end.

(** [l[k]] and [.iloc[k]] for [k >= 0]. *)
Definition index_pos {A : Type} (l : list A) (k : nat) : result A :=
  match nth_error l k with
  | Some a => Ok a
  | None => Raise IndexError
  end.

(** [.min()] of a datetime index: [NaT] when it is empty. *)
Definition index_min (l : list Z) : Timestamp :=
  match l with
  | [] => NaT
  | x :: xs => Ts (fold_left Z.min xs x)
  end.

(** The day numbers [lo], [lo + 1], ..., [hi]. *)
Definition day_span (lo hi : Z) : list Z :=
  map (fun i => lo + Z.of_nat i) (seq 0 (Z.to_nat (hi - lo + 1))).

(** ** pandas business days *)

Definition is_business_day (d : Z) : bool := weekday d <? 5.

(** Saturday and Sunday roll forward to Monday. *)
Definition rollforward (d : Z) : Z :=
  if weekday d =? 5 then d + 2
  else if weekday d =? 6 then d + 1
  else d.

(** [pd.date_range(start=d, periods=n, freq='B')], as midnight timestamps. *)
Fixpoint date_range_B (d : Z) (periods : nat) : list Z :=
  match periods with
  | O => []
  | S n => let b := rollforward d in midnight b :: date_range_B (b + 1) n
  end.

(** ** The exchange calendar *)

(** A pandas_market_calendars exchange calendar with the Monday to Friday
    week mask that the NYSE has had since 1952-09-29 (the Saturday sessions
    before that date are not covered): its holidays, and the market-close
    instant of each session day. *)
Record Calendar : Type := {
  holidays : list Z;
  market_close : Z -> Z
}.

Definition is_session (cal : Calendar) (d : Z) : bool :=
  is_business_day d && negb (existsb (Z.eqb d) (holidays cal)).

(** [cal.valid_days(start_date, end_date)]: both ends are normalized to
    their dates, the result is the sessions between them in ascending
    order, as midnight UTC timestamps. *)
Definition valid_days (cal : Calendar) (start_date end_date : Z) : list Z :=
  map midnight
      (filter (is_session cal) (day_span (date_of start_date) (date_of end_date))).

Record ScheduleRow : Type := {
  row_session : Z;
  row_market_close : Timestamp
}.

(** [cal.schedule(start_date, end_date)]: one row per session. *)
Definition schedule (cal : Calendar) (start_date end_date : Z) : list ScheduleRow :=
  map (fun t => {| row_session := t;
                   row_market_close := Ts (market_close cal (date_of t)) |})
      (valid_days cal start_date end_date).

(** ** The trading calendar oracle *)

(** [last_trading_day(nyse)], with the clock reading [now] made explicit. *)
Definition last_trading_day (cal : Calendar) (now : Z) : result Timestamp :=
  let today_utc_naive := now in
  let first_day_of_year := midnight (new_year today_utc_naive) in
  let valid := valid_days cal first_day_of_year today_utc_naive in
  last <- index_neg valid 1 ;;
  schedule_today <- index_pos (schedule cal last last) 0 ;;
  let market_close_today_utc := row_market_close schedule_today in
  if ts_gt (Ts now) market_close_today_utc then Ok market_close_today_utc
  else
    prev <- index_neg valid 2 ;;
    schedule_prev_day <- index_pos (schedule cal prev prev) 0 ;;
    Ok (row_market_close schedule_prev_day).

(** [next_trading_day(nyse, date_str)]; [date_str] is the day number of the
    stored date. *)
Definition next_trading_day (cal : Calendar) (date_str : Z) : result Timestamp :=
  let future_dates := date_range_B date_str 10 in
  first <- index_pos future_dates 0 ;;
  last <- index_neg future_dates 1 ;;
  let trading_days := valid_days cal first last in
  let input_date_tz_aware := Ts (midnight date_str) in
  let next_day :=
    index_min (filter (fun t => ts_gt (Ts t) input_date_tz_aware) trading_days) in
  Ok next_day.

(** ** Loops that may raise *)

(** [for x in l: body], threading the loop's variables; an exception raised
    by the body ends the loop. *)
Fixpoint for_each {A S : Type} (l : list A) (body : A -> S -> result S) (s : S)
  : result S :=
  match l with
  | [] => Ok s
  | x :: xs => s' <- body x s ;; for_each xs body s'
  end.

(** ** The store *)

(** Earliest date used for downloads, 2015-01-01. *)
Definition BEGINNING_DATE : Z := Eval cbv in days_from_civil 2015 1 1.

(** A document of the [all_stocks] collection. *)
Record PriceRecord : Type := {
  doc_ticker : string;
  doc_date : Z;
  doc_open : float;
  doc_high : float;
  doc_low : float;
  doc_close : float
}.

(** The collection: its documents in insertion order, and whether it carries
    the unique hash index on [ticker] and [date]. *)
Record Collection : Type := {
  documents : list PriceRecord;
  unique_ticker_date : bool
}.

Definition same_key (a b : PriceRecord) : bool :=
  String.eqb (doc_ticker a) (doc_ticker b) && (doc_date a =? doc_date b).

(** [init_db()], on a server where the collection exists ([Some]) or does
    not ([None]): a new collection is created empty with the unique index,
    an existing one is used as it is. *)
Definition init_db (server : option Collection) : Collection :=
  match server with
  | None => {| documents := []; unique_ticker_date := true |}
  | Some col => col
  end.

(** The documents of one import request, inserted one after the other: a
    document that violates the unique index is an error, which ends the
    request when it is to be complete and is passed over otherwise. *)
Fixpoint insert_documents (unique complete : bool) (docs stored : list PriceRecord)
  : result (list PriceRecord) :=
  match docs with
  | [] => Ok stored
  | d :: ds =>
      if unique && existsb (same_key d) stored
      then if complete then Raise DocumentInsertError
           else insert_documents unique complete ds stored
      else insert_documents unique complete ds (stored ++ [d])
  end.

(** [col.import_bulk(documents, halt_on_error)]: a failed request leaves the
    collection as it was. *)
Definition import_bulk (col : Collection) (docs : list PriceRecord)
           (halt_on_error : bool) : result unit * Collection :=
  match insert_documents (unique_ticker_date col) halt_on_error docs (documents col) with
  | Ok stored =>
      (Ok tt, {| documents := stored; unique_ticker_date := unique_ticker_date col |})
  | Raise e => (Raise e, col)
  end.

(** [get_last_update(ticker, db)]: the greatest date among the documents of
    [ticker], [None] when it has none. *)
Definition get_last_update (ticker : string) (db : Collection) : option Z :=
  match map doc_date
            (filter (fun doc => String.eqb (doc_ticker doc) ticker) (documents db)) with
  | [] => None
  | d :: ds => Some (fold_left Z.max ds d)
  end.

(** ** The synchronization planner *)

(** An entry of the plan: [{"date": date, "tickers": tickers}]. *)
Record SyncBatch : Type := {
  batch_date : Z;
  batch_tickers : list string
}.

(** [ticker_dict[date].append(ticker)] on a [defaultdict(list)], kept in
    insertion order of its keys. *)
Fixpoint dict_append (dict : list (Z * list string)) (date : Z) (ticker : string)
  : list (Z * list string) :=
  match dict with
  | [] => [(date, [ticker])]
  | (k, v) :: rest =>
      if k =? date then (k, v ++ [ticker]) :: rest
      else (k, v) :: dict_append rest date ticker
  end.

Definition anything_to_download (cal : Calendar) (now : Z) (d : Z) : result bool :=
  next <- next_trading_day cal d ;;
  last <- last_trading_day cal now ;;
  Ok (ts_lt next last).

(** The first loop of [calculate_downloads]: one step for ticker [i]. *)
Definition collect_date (cal : Calendar) (now : Z) (db : Collection)
           (i : string) (all_dates : list (Z * string)) : result (list (Z * string)) :=
  match get_last_update i db with
  | Some lu =>
      b <- anything_to_download cal now lu ;;
      if b then Ok (all_dates ++ [(lu, i)]) else Ok all_dates
  | None => Ok (all_dates ++ [(BEGINNING_DATE, i)])
  end.

Definition group_by_date (all_dates : list (Z * string)) : list (Z * list string) :=
  fold_left (fun ticker_dict item => dict_append ticker_dict (fst item) (snd item))
            all_dates [].

(** [calculate_downloads(db, tickers)]. *)
Definition calculate_downloads (cal : Calendar) (now : Z) (db : Collection)
           (tickers : list string) : result (list SyncBatch) :=
  all_dates <- for_each tickers (collect_date cal now db) [] ;;
  let ticker_dict := group_by_date all_dates in
  Ok (map (fun kv => {| batch_date := fst kv; batch_tickers := snd kv |}) ticker_dict).

(** ** Fetch and normalize *)

(** A column holds a value, possibly NaN, for every label of the index. *)
Definition Column : Type := Z -> float.

(** The column labels of a response: flat field names, or [(field, ticker)]
    pairs. *)
Inductive ColumnIndex : Type :=
| Index (cols : list (string * Column))
| MultiIndex (cols : list ((string * string) * Column)).

Record DataFrame : Type := {
  index : list Z;
  columns : ColumnIndex
}.

Definition label_eqb (a b : string * string) : bool :=
  String.eqb (fst a) (fst b) && String.eqb (snd a) (snd b).

(** [df.loc[date, key]] for a date of the index: a [KeyError] when no column
    carries the label.  The value is one cell: this is the response with one
    row per date, as the provider gives it; where an index repeats a date the
    source gets the series of the rows of that date. *)
Fixpoint loc {K : Type} (eqb : K -> K -> bool) (cols : list (K * Column))
         (date : Z) (key : K) : result float :=
  match cols with
  | [] => Raise KeyError
  | (k, c) :: rest => if eqb k key then Ok (c date) else loc eqb rest date key
  end.

(** [.unique()]: the distinct values in order of first appearance. *)
Fixpoint unique_from (seen l : list Z) : list Z :=
  match l with
  | [] => []
  | x :: xs =>
      if existsb (Z.eqb x) seen then unique_from seen xs
      else x :: unique_from (x :: seen) xs
  end.

Definition unique (l : list Z) : list Z := unique_from [] l.

Definition multi_record (cols : list ((string * string) * Column))
           (date : Z) (ticker : string) : result PriceRecord :=
  o <- loc label_eqb cols date ("Open"%string, ticker) ;;
  h <- loc label_eqb cols date ("High"%string, ticker) ;;
  l <- loc label_eqb cols date ("Low"%string, ticker) ;;
  c <- loc label_eqb cols date ("Adj Close"%string, ticker) ;;
  Ok {| doc_ticker := ticker; doc_date := date;
        doc_open := o; doc_high := h; doc_low := l; doc_close := c |}.

Definition flat_record (cols : list (string * Column))
           (date : Z) (ticker : string) : result PriceRecord :=
  o <- loc String.eqb cols date "Open"%string ;;
  h <- loc String.eqb cols date "High"%string ;;
  l <- loc String.eqb cols date "Low"%string ;;
  c <- loc String.eqb cols date "Adj Close"%string ;;
  Ok {| doc_ticker := ticker; doc_date := date;
        doc_open := o; doc_high := h; doc_low := l; doc_close := c |}.

(** The reshaping of a response into records, after the download. *)
Definition normalize (tickers : list string) (df : DataFrame)
  : result (list PriceRecord) :=
  let dates := unique (index df) in
  match columns df with
  | MultiIndex cols =>
      for_each dates
        (fun date records =>
           for_each tickers
             (fun ticker records =>
                record <- multi_record cols date ticker ;;
                Ok (records ++ [record]))
             records)
        []
  | Index cols =>
      ticker <- index_pos tickers 0 ;;
      for_each dates
        (fun date records =>
           record <- flat_record cols date ticker ;;
           Ok (records ++ [record]))
        []
  end.

(** The provider: [yf.download(tickers, start, interval='1d')]. *)
Definition Provider : Type := list string -> Z -> result DataFrame.

(** [data_download(tickers, start)]: [None] for an empty batch and when the
    download raises. *)
Definition data_download (yf_download : Provider) (tickers : list string) (start : Z)
  : result (option (list PriceRecord)) :=
  match tickers with
  | [] => Ok None
  | _ :: _ =>
      match yf_download tickers start with
      | Raise _ => Ok None
      | Ok df => records <- normalize tickers df ;; Ok (Some records)
      end
  end.

(** ** The run *)

(** The loop of [main] over the plan, threading the collection. *)
Fixpoint import_entries (yf_download : Provider) (download_lists : list SyncBatch)
         (col : Collection) : result unit * Collection :=
  match download_lists with
  | [] => (Ok tt, col)
  | entry :: rest =>
      match data_download yf_download (batch_tickers entry) (batch_date entry) with
      | Raise e => (Raise e, col)
      | Ok None => (Raise TypeError, col)
      | Ok (Some records) =>
          match import_bulk col records true with
          | (Ok _, col') => import_entries yf_download rest col'
          | (Raise e, col') => (Raise e, col')
          end
      end
  end.

(** [main()], given the ticker list that [get_tickers_list] read. *)
Definition main (server : option Collection) (yf_download : Provider)
           (cal : Calendar) (now : Z) (tickers : list string)
  : result unit * Collection :=
  let col := init_db server in
  match calculate_downloads cal now col tickers with
  | Raise e => (Raise e, col)
  | Ok download_lists => import_entries yf_download download_lists col
  end.

(** ** The ticker universe *)

(** The ASCII characters that [str.split()] takes for white space; the
    files are read as ASCII text, the white space of Unicode beyond it is not
    covered. *)
Definition is_space (c : Ascii.ascii) : bool :=
  let n := Ascii.nat_of_ascii c in
  (((9 <=? n) && (n <=? 13)) || ((28 <=? n) && (n <=? 32)))%nat.

(** [s.replace(a, b)] for one-character [a] and [b]. *)
Fixpoint str_replace (a b : Ascii.ascii) (s : string) : string :=
  match s with
  | EmptyString => EmptyString
  | String c s' => String (if Ascii.eqb c a then b else c) (str_replace a b s')
  end.

(** The word read so far, when a separator or the end is met. *)
Definition flush (word : string) : list string :=
  match word with
  | EmptyString => []
  | String _ _ => [word]
  end.

(** [s.split()]: the maximal runs of characters other than white space. *)
Fixpoint split_words (word s : string) : list string :=
  match s with
  | EmptyString => flush word
  | String c s' =>
      if is_space c then flush word ++ split_words EmptyString s'
      else split_words (word ++ String c EmptyString)%string s'
  end.

Definition str_split (s : string) : list string := split_words EmptyString s.

(** [list.remove(x)]: the list without its first [x], [None] for the
    [ValueError] raised when there is none. *)
Fixpoint list_remove (x : string) (l : list string) : option (list string) :=
  match l with
  | [] => None
  | y :: ys =>
      if String.eqb y x then Some ys
      else match list_remove x ys with
           | Some ys' => Some (y :: ys')
           | None => None
           end
  end.

(** [read_file(file_path)], for the text of the file, [None] when opening or
    reading it raises; [order] is the order in which [list(set(...))] lists
    the elements of a set. *)
Definition read_file (order : list string -> list string) (file : option string)
  : list string :=
  match file with
  | None => []
  | Some text =>
      let tickers := order (str_split (str_replace "010"%char " "%char text)) in
      map (str_replace "."%char "-"%char) tickers
  end.

(** [get_exchanges_tickers()], for the ticker columns of the three index
    tables and of the picks file, [None] when reading the picks raises. *)
Definition get_exchanges_tickers (order : list string -> list string)
           (r1000 dji n100 : list string) (picks : option (list string))
  : list string :=
  let extra :=
    match picks with
    | None => []
    | Some col =>
        match rev col with
        | [] => []
        | last :: _ => if String.eqb last "Summary" then removelast col else col
        end
    end in
  let ticker_df := r1000 ++ dji ++ n100 ++ extra in
  let ticker_df_list := order ticker_df in
  map (str_replace "."%char "-"%char) ticker_df_list.

(** [get_tickers_list(picks, inclusion, exclusion)]. *)
Definition get_tickers_list (order : list string -> list string)
           (inclusion exclusion : option string)
           (r1000 dji n100 : list string) (picks : option (list string))
  : list string :=
  let all_tickers :=
    read_file order inclusion ++ get_exchanges_tickers order r1000 dji n100 picks in
  let exclusion_tickers := read_file order exclusion in
  fold_left (fun all_tickers i =>
               match list_remove i all_tickers with
               | Some removed => removed
               | None => all_tickers
               end)
            exclusion_tickers all_tickers.

(** * Vocabulary of the statements *)

(** The days between the first and the last of the ten business days that
    [next_trading_day] asks the calendar about. *)
Definition in_window (d s : Z) : Prop :=
  exists first last,
    index_pos (date_range_B d 10) 0 = Ok first
    /\ index_neg (date_range_B d 10) 1 = Ok last
    /\ date_of first <= s <= date_of last.

(** The sessions of the current year up to today, as day numbers. *)
Definition year_sessions (cal : Calendar) (now : Z) : list Z :=
  filter (is_session cal) (day_span (new_year now) (date_of now)).

(** The close of a session falls on the session's own UTC day. *)
Definition close_in_day (cal : Calendar) : Prop :=
  forall d, is_session cal d = true ->
            midnight d < market_close cal d < midnight (d + 1).

(** What the first loop of [calculate_downloads] decides for ticker [i]:
    the start date of its download, or [None] when it is up to date. *)
Definition start_date (cal : Calendar) (now : Z) (db : Collection) (i : string)
  : result (option Z) :=
  match get_last_update i db with
  | Some lu =>
      b <- anything_to_download cal now lu ;;
      Ok (if b then Some lu else None)
  | None => Ok (Some BEGINNING_DATE)
  end.

(** The decision, read as "up to date" where the oracle raises. *)
Definition planned_start (cal : Calendar) (now : Z) (db : Collection) (i : string)
  : option Z :=
  match start_date cal now db i with
  | Ok o => o
  | Raise _ => None
  end.

(** The [(date, ticker)] pairs of the instruments that need data, in the
    order of the ticker list. *)
Definition entries_of (sd : string -> option Z) (tickers : list string)
  : list (Z * string) :=
  flat_map (fun i => match sd i with Some d => [(d, i)] | None => [] end) tickers.

(** [ticker_dict[date]] read back; a [defaultdict] gives the empty list for a
    missing key. *)
Fixpoint dict_get (dict : list (Z * list string)) (date : Z) : list string :=
  match dict with
  | [] => []
  | (k, v) :: rest => if k =? date then v else dict_get rest date
  end.

(** Ticker [i] is in the batch of the plan that starts at [d]. *)
Definition in_plan (plan : list SyncBatch) (d : Z) (i : string) : Prop :=
  exists b, In b plan /\ batch_date b = d /\ In i (batch_tickers b).

(** The plan partitions by start date the instruments of [tickers] that
    need data, for the decision [sd] of each instrument. *)
Definition partition_by_start_date (sd : string -> result (option Z))
           (tickers : list string) (plan : list SyncBatch) : Prop :=
  (forall i j d,
      In i tickers -> In j tickers ->
      sd i = Ok (Some d) -> sd j = Ok (Some d) ->
      exists b, In b plan /\ In i (batch_tickers b) /\ In j (batch_tickers b))
  /\ (forall i j di dj b,
         sd i = Ok (Some di) -> sd j = Ok (Some dj) -> di <> dj ->
         In b plan -> In i (batch_tickers b) -> ~ In j (batch_tickers b))
  /\ (forall i d,
         In i tickers -> sd i = Ok (Some d) ->
         exists b, In b plan /\ batch_date b = d /\ In i (batch_tickers b)
                   /\ forall b', In b' plan -> In i (batch_tickers b') -> b' = b)
  /\ (forall i b, sd i = Ok None -> In b plan -> ~ In i (batch_tickers b))
  /\ (plan = [] <-> forall i, In i tickers -> sd i = Ok None)
  /\ NoDup (map batch_date plan)
  /\ (forall b, In b plan -> batch_tickers b <> []).

(** The batches come in the order in which their start dates are first met
    along [tickers], and each holds its tickers in the order of [tickers]. *)
Definition first_encounter_order (sd : string -> option Z)
           (tickers : list string) (plan : list SyncBatch) : Prop :=
  map batch_date plan = unique (map fst (entries_of sd tickers))
  /\ forall b, In b plan ->
       batch_tickers b
       = map snd (filter (fun p => fst p =? batch_date b) (entries_of sd tickers)).

(** The record that the columns [o], [h], [l] and [c] give ticker [t] on
    date [d]. *)
Definition record_of (o h l c : Column) (t : string) (d : Z) : PriceRecord :=
  {| doc_ticker := t; doc_date := d;
     doc_open := o d; doc_high := h d; doc_low := l d; doc_close := c d |}.

(** The four fields that [data_download] reads. *)
Definition price_fields : list string :=
  ["Open"%string; "High"%string; "Low"%string; "Adj Close"%string].

(** The key of the unique index: ticker and date. *)
Definition doc_key (r : PriceRecord) : string * Z := (doc_ticker r, doc_date r).

(** The collections that the program can come to hold: the one that a run of
    [main] leaves, on a server where the collection did not exist or held a
    collection of that kind, and the one that a further import leaves. *)
Inductive reachable : Collection -> Prop :=
| reach_first_run (yf : Provider) (cal : Calendar) (now : Z) (tickers : list string) :
    reachable (snd (main None yf cal now tickers))
| reach_next_run (col : Collection) (yf : Provider) (cal : Calendar) (now : Z)
                 (tickers : list string) :
    reachable col -> reachable (snd (main (Some col) yf cal now tickers))
| reach_import (col : Collection) (docs : list PriceRecord) (halt_on_error : bool) :
    reachable col -> reachable (snd (import_bulk col docs halt_on_error)).

(** The invariant: the index is there and no two documents share a key. *)
Definition keys_unique (col : Collection) : Prop :=
  unique_ticker_date col = true /\ NoDup (map doc_key (documents col)).

(** The character [c] occurs in [s]. *)
Fixpoint has_char (c : Ascii.ascii) (s : string) : bool :=
  match s with
  | EmptyString => false
  | String c' s' => Ascii.eqb c' c || has_char c s'
  end.

(** ** Sample data *)

Module Sample.

Definition jan (d : Z) : Z := days_from_civil 2024 1 d.

(** January 2024 on the NYSE: closed on New Year's Day and on Martin
    Luther King Jr. Day, closing at 21:00 UTC. *)
Definition nyse : Calendar :=
  {| holidays := [jan 1; jan 15];
     market_close := fun d => at_time d 21 0 |}.

End Sample.

Module SampleStore.

Import Sample.

Definition price (t : string) (d : Z) (c : float) : PriceRecord :=
  {| doc_ticker := t; doc_date := d;
     doc_open := c; doc_high := c; doc_low := c; doc_close := c |}.

(** A has data up to Wednesday 2024-01-03, B up to Thursday 2024-01-04, C
    up to Wednesday 2024-01-03, D up to Friday 2024-01-05; N has none. *)
Definition store : Collection :=
  {| documents :=
       [price "A" (jan 2) 10.5; price "A" (jan 3) 10.75;
        price "B" (jan 3) 20.25; price "B" (jan 4) 20.5;
        price "C" (jan 3) 30; price "D" (jan 5) 40];
     unique_ticker_date := true |}.

(** The two weeks after Friday 2024-01-05 without a session. *)
Definition closed_fortnight : Calendar :=
  {| holidays := [jan 1; jan 8; jan 9; jan 10; jan 11; jan 12;
                  jan 15; jan 16; jan 17; jan 18; jan 19];
     market_close := fun d => at_time d 21 0 |}.

End SampleStore.

Module SampleFrames.

Import Sample.

Definition on_days (a b : float) : Column := fun d => if d =? jan 2 then a else b.

Definition aapl_open : Column := on_days 187.25 184.25.
Definition aapl_high : Column := on_days 188.5 185.75.
Definition aapl_low : Column := on_days 183.75 183.5.
Definition aapl_close : Column := on_days 185.5 184.25.
Definition aapl_adj_close : Column := on_days 184.5 183.125.

(** A listing on 2024-01-03: no data on 2024-01-02. *)
Definition newco : Column := on_days nan 12.5.

Definition flat_aapl : DataFrame :=
  {| index := [jan 2; jan 3];
     columns := Index [("Adj Close"%string, aapl_adj_close);
                       ("Close"%string, aapl_close);
                       ("High"%string, aapl_high);
                       ("Low"%string, aapl_low);
                       ("Open"%string, aapl_open)] |}.

Definition multi_aapl : DataFrame :=
  {| index := [jan 2; jan 3];
     columns := MultiIndex [(("Adj Close"%string, "AAPL"%string), aapl_adj_close);
                            (("Close"%string, "AAPL"%string), aapl_close);
                            (("High"%string, "AAPL"%string), aapl_high);
                            (("Low"%string, "AAPL"%string), aapl_low);
                            (("Open"%string, "AAPL"%string), aapl_open)] |}.

Definition multi_two_cols : list ((string * string) * Column) :=
  [(("Adj Close"%string, "AAPL"%string), aapl_adj_close);
   (("Adj Close"%string, "NEW"%string), newco);
   (("High"%string, "AAPL"%string), aapl_high);
   (("High"%string, "NEW"%string), newco);
   (("Low"%string, "AAPL"%string), aapl_low);
   (("Low"%string, "NEW"%string), newco);
   (("Open"%string, "AAPL"%string), aapl_open);
   (("Open"%string, "NEW"%string), newco)].

Definition multi_two : DataFrame :=
  {| index := [jan 2; jan 3]; columns := MultiIndex multi_two_cols |}.

(** The cells of [multi_two], by field and ticker. *)
Definition two_cell (f t : string) : Column :=
  if String.eqb t "NEW" then newco
  else if String.eqb f "Open" then aapl_open
  else if String.eqb f "High" then aapl_high
  else if String.eqb f "Low" then aapl_low
  else aapl_adj_close.

End SampleFrames.

Module SampleRun.

Definition provider : Provider := fun _ _ => Ok SampleFrames.multi_two.

(** The collection after a first run on a server without the collection. *)
Definition first_run : Collection :=
  snd (main None provider Sample.nyse (at_time (Sample.jan 5) 22 0)
            ["AAPL"%string; "NEW"%string]).

(** A collection that was on the server before the program ran, made without
    the unique index. *)
Definition legacy : Collection := {| documents := []; unique_ticker_date := false |}.

End SampleRun.

Module SampleUniverse.

(** A set listed in the order of the last appearance of its elements. *)
Definition order : list string -> list string := nodup string_dec.

Definition inclusion : option string := Some "BRK.A ZZZ
AAPL  AAPL"%string.

Definition exclusion : option string := Some "AAPL MSFT"%string.

Definition r1000 : list string := ["AAPL"%string; "MSFT"%string; "BF.B"%string].

Definition dji : list string := ["IBM"%string; "AAPL"%string].

Definition n100 : list string := ["GOOG"%string].

Definition picks : option (list string) := Some ["QQQ"%string; "Summary"%string].

End SampleUniverse.

(** * Properties *)

(** ** Lists and indices *)

Section IndexFacts.

Context {A : Type}.

Lemma index_neg_nil (k : nat) : (0 < k)%nat -> index_neg (@nil A) k = Raise IndexError.
Proof.
  intros Hk. unfold index_neg. simpl.
  destruct k; [lia | reflexivity].
Qed.

Lemma index_neg_last (l : list A) (x : A) : index_neg (l ++ [x]) 1 = Ok x.
Proof.
  unfold index_neg. rewrite length_app. simpl.
  destruct (Nat.ltb_spec (List.length l + 1) 1) as [H | _]; [lia |].
  replace (List.length l + 1 - 1)%nat with (List.length l) by lia.
  rewrite nth_error_app2 by lia. rewrite Nat.sub_diag. reflexivity.
Qed.

Lemma index_neg_last_but_one (l : list A) (y x : A) :
  index_neg (l ++ [y; x]) 2 = Ok y.
Proof.
  unfold index_neg. rewrite length_app. simpl.
  destruct (Nat.ltb_spec (List.length l + 2) 2) as [H | _]; [lia |].
  replace (List.length l + 2 - 2)%nat with (List.length l) by lia.
  rewrite nth_error_app2 by lia. rewrite Nat.sub_diag. reflexivity.
Qed.

Lemma index_neg_single (x : A) : index_neg [x] 2 = Raise IndexError.
Proof. reflexivity. Qed.

(** A non-empty list ends in some element; one with two elements ends in
    two. *)
Lemma snoc_cases (l : list A) :
  l = [] \/ (exists x, l = [x]) \/ (exists l' y x, l = l' ++ [y; x]).
Proof.
  destruct l as [| a l]; [now left | right].
  destruct (exists_last (l := a :: l)) as [l1 [x E]]; [discriminate |].
  rewrite E. clear E.
  destruct l1 as [| b l1]; [left; now exists x | right].
  destruct (exists_last (l := b :: l1)) as [l2 [y E]]; [discriminate |].
  rewrite E. exists l2, y, x. now rewrite <- app_assoc.
Qed.

End IndexFacts.

(** ** Days, midnights and business days *)

Example ymd_2024_01_05 : days_from_civil 2024 1 5 = 19727.
Proof. reflexivity. Qed.

Example epoch_is_day_zero : days_from_civil 1970 1 1 = 0 /\ weekday 0 = 3.
Proof. split; reflexivity. Qed.

Example leap_day_2024 : days_from_civil 2024 3 1 - days_from_civil 2024 2 28 = 2.
Proof. reflexivity. Qed.

Example year_turns_at_midnight :
  year_of (days_from_civil 2023 12 31) = 2023
  /\ year_of (days_from_civil 2024 1 1) = 2024
  /\ year_of (days_from_civil 2024 12 31) = 2024
  /\ new_year (at_time (days_from_civil 2024 7 4) 13 30) = days_from_civil 2024 1 1.
Proof. repeat split; reflexivity. Qed.

Example friday_the_5th : weekday (days_from_civil 2024 1 5) = 4.
Proof. reflexivity. Qed.

Example ten_business_days_from_a_saturday :
  map date_of (date_range_B (days_from_civil 2024 1 6) 10)
  = map (days_from_civil 2024 1) [8; 9; 10; 11; 12; 15; 16; 17; 18; 19].
Proof. reflexivity. Qed.

Lemma date_of_midnight (d : Z) : date_of (midnight d) = d.
Proof.
  unfold date_of, midnight, seconds_per_day.
  rewrite Z.mul_comm. apply Z.div_mul. lia.
Qed.

Lemma midnight_le_now (t : Z) : midnight (date_of t) <= t < midnight (date_of t + 1).
Proof.
  unfold date_of, midnight, seconds_per_day.
  pose proof (Z.div_mod t 86400 ltac:(lia)) as E.
  pose proof (Z.mod_pos_bound t 86400 ltac:(lia)) as B.
  lia.
Qed.

Lemma midnight_lt (a b : Z) : midnight a < midnight b <-> a < b.
Proof. unfold midnight, seconds_per_day. lia. Qed.

Lemma in_day_span (lo hi x : Z) : In x (day_span lo hi) <-> lo <= x <= hi.
Proof.
  unfold day_span. rewrite in_map_iff. split.
  - intros [i [E Hi]]. apply in_seq in Hi. lia.
  - intros H. exists (Z.to_nat (x - lo)). split; [lia |].
    apply in_seq. lia.
Qed.

Lemma day_span_sorted (lo hi : Z) : StronglySorted Z.lt (day_span lo hi).
Proof.
  unfold day_span. generalize (Z.to_nat (hi - lo + 1)) as n.
  generalize 0%nat as k. intros k n. revert k.
  induction n as [| n IH]; intros k; simpl; constructor.
  - apply IH.
  - apply Forall_forall. intros x Hx.
    apply in_map_iff in Hx. destruct Hx as [i [E Hi]].
    apply in_seq in Hi. lia.
Qed.

Lemma filter_sorted (f : Z -> bool) (l : list Z) :
  StronglySorted Z.lt l -> StronglySorted Z.lt (filter f l).
Proof.
  induction 1 as [| x l Hs IH Hx]; simpl; [constructor |].
  destruct (f x); [| assumption].
  constructor; [assumption |].
  apply Forall_forall. intros y Hy. apply filter_In in Hy.
  rewrite Forall_forall in Hx. now apply Hx.
Qed.

Lemma sorted_snoc (l : list Z) (x y : Z) :
  StronglySorted Z.lt (l ++ [x]) -> In y l -> y < x.
Proof.
  induction l as [| a l IH]; simpl; intros Hs Hy; [contradiction |].
  inversion Hs as [| ? ? Hs' Ha]; subst.
  destruct Hy as [-> | Hy].
  - rewrite Forall_forall in Ha. apply Ha. apply in_or_app. right. now left.
  - now apply IH.
Qed.

Lemma weekday_range (d : Z) : 0 <= weekday d < 7.
Proof. unfold weekday. apply Z.mod_pos_bound. lia. Qed.

Lemma weekday_succ (d : Z) :
  weekday (d + 1) = if weekday d =? 6 then 0 else weekday d + 1.
Proof.
  unfold weekday.
  destruct (Z.eqb_spec ((d + 3) mod 7) 6) as [E | E];
    pose proof (Z.mod_pos_bound (d + 3) 7 ltac:(lia));
    pose proof (Z.div_mod (d + 3) 7 ltac:(lia));
    pose proof (Z.mod_pos_bound (d + 1 + 3) 7 ltac:(lia));
    pose proof (Z.div_mod (d + 1 + 3) 7 ltac:(lia)); lia.
Qed.

Lemma rollforward_spec (d : Z) :
  d <= rollforward d
  /\ is_business_day (rollforward d) = true
  /\ forall x, d <= x < rollforward d -> is_business_day x = false.
Proof.
  unfold rollforward, is_business_day.
  pose proof (weekday_range d) as R.
  pose proof (weekday_succ d) as S1.
  pose proof (weekday_succ (d + 1)) as S2.
  replace (d + 1 + 1) with (d + 2) in S2 by lia.
  destruct (Z.eqb_spec (weekday d) 5) as [E5 | N5].
  - rewrite E5 in S1. simpl in S1. rewrite S1 in S2. simpl in S2.
    repeat split; [lia | rewrite S2; reflexivity |].
    intros x Hx. assert (x = d \/ x = d + 1) as [-> | ->] by lia.
    + rewrite E5. reflexivity.
    + rewrite S1. reflexivity.
  - destruct (Z.eqb_spec (weekday d) 6) as [E6 | N6].
    + try rewrite E6 in S1; simpl in S1.
      repeat split; [lia | rewrite S1; reflexivity |].
      intros x Hx. assert (x = d) as -> by lia. rewrite E6. reflexivity.
    + repeat split; [lia | apply Z.ltb_lt; lia | intros x Hx; lia].
Qed.

(** ** The calendar's sessions *)

Lemma in_valid_days (cal : Calendar) (s e t : Z) :
  In t (valid_days cal s e) <->
  exists d, t = midnight d /\ date_of s <= d <= date_of e /\ is_session cal d = true.
Proof.
  unfold valid_days. rewrite in_map_iff. split.
  - intros [d [E Hd]]. apply filter_In in Hd. destruct Hd as [Hd Hs].
    apply in_day_span in Hd. exists d. auto.
  - intros [d [E [Hd Hs]]]. exists d. split; [auto |].
    apply filter_In. split; [now apply in_day_span | assumption].
Qed.


Lemma valid_days_one (cal : Calendar) (d : Z) :
  is_session cal d = true ->
  valid_days cal (midnight d) (midnight d) = [midnight d].
Proof.
  intros H. unfold valid_days, day_span. rewrite date_of_midnight.
  replace (d - d + 1) with 1 by lia. simpl.
  replace (d + 0) with d by lia. now rewrite H.
Qed.

Lemma fold_min_spec (xs : list Z) (x : Z) :
  let m := fold_left Z.min xs x in
  (m = x \/ In m xs) /\ m <= x /\ forall y, In y xs -> m <= y.
Proof.
  revert x. induction xs as [| a xs IH]; intros x; simpl.
  - repeat split; [now left | lia | contradiction].
  - destruct (IH (Z.min x a)) as [Hin [Hle Hall]].
    repeat split.
    + destruct Hin as [E | Hin]; [| now right; right].
      rewrite E. destruct (Z.min_spec x a) as [[_ ->] | [_ ->]]; auto.
    + lia.
    + intros y [<- | Hy]; [lia | now apply Hall].
Qed.

Lemma index_min_spec (l : list Z) :
  l <> [] ->
  exists m, index_min l = Ts m /\ In m l /\ forall y, In y l -> m <= y.
Proof.
  destruct l as [| x xs]; [congruence | intros _].
  destruct (fold_min_spec xs x) as [Hin [Hle Hall]].
  exists (fold_left Z.min xs x). simpl. repeat split.
  - destruct Hin as [-> | Hin]; auto.
  - intros y [<- | Hy]; [assumption | now apply Hall].
Qed.

(** ** The forward window of [next_trading_day] *)



Lemma date_range_B_last (n : nat) (d : Z) :
  exists b, index_neg (date_range_B d (S n)) 1 = Ok (midnight b) /\ rollforward d <= b.
Proof.
  revert d. induction n as [| n IH]; intros d.
  - exists (rollforward d). split; [reflexivity | lia].
  - destruct (IH (rollforward d + 1)) as [b [E Hb]].
    exists b. split.
    + change (date_range_B d (S (S n)))
        with (midnight (rollforward d) :: date_range_B (rollforward d + 1) (S n)).
      revert E. generalize (date_range_B (rollforward d + 1) (S n)) as l.
      intros l. destruct (snoc_cases l) as [-> | [[x ->] | [l' [y [x ->]]]]].
      * discriminate.
      * intros E. exact E.
      * intros E.
        change (midnight (rollforward d) :: l' ++ [y; x])
          with ((midnight (rollforward d) :: l') ++ [y; x]).
        replace ((midnight (rollforward d) :: l') ++ [y; x])
          with (((midnight (rollforward d) :: l') ++ [y]) ++ [x])
          by (rewrite <- app_assoc; reflexivity).
        rewrite index_neg_last.
        replace (l' ++ [y; x]) with ((l' ++ [y]) ++ [x]) in E
          by (rewrite <- app_assoc; reflexivity).
        now rewrite index_neg_last in E.
    + destruct (rollforward_spec d) as [H1 _].
      destruct (rollforward_spec (rollforward d + 1)) as [H2 _]. lia.
Qed.

Lemma window_bounds (d : Z) :
  exists b,
    index_pos (date_range_B d 10) 0 = Ok (midnight (rollforward d))
    /\ index_neg (date_range_B d 10) 1 = Ok (midnight b)
    /\ rollforward d <= b.
Proof.
  destruct (date_range_B_last 9 d) as [b [E Hb]]. exists b. auto.
Qed.

Lemma in_window_iff (d s : Z) :
  in_window d s <->
  exists b, index_neg (date_range_B d 10) 1 = Ok (midnight b) /\ rollforward d <= s <= b.
Proof.
  destruct (window_bounds d) as [b [E0 [E9 Hb]]]. split.
  - intros [first [last [F [L R]]]].
    rewrite E0 in F. rewrite E9 in L. inversion F; inversion L; subst.
    rewrite !date_of_midnight in R. exists b. auto.
  - intros [b' [E R]]. rewrite E9 in E. inversion E as [E']. 
    apply (f_equal date_of) in E'. rewrite !date_of_midnight in E'. subst b'.
    exists (midnight (rollforward d)), (midnight b).
    rewrite !date_of_midnight. auto.
Qed.

(** What [next_trading_day] returns: [NaT] when the window holds no session
    after [d], and otherwise midnight of the least session of the window
    after [d].  It raises in neither case. *)
Lemma next_trading_day_cases (cal : Calendar) (d : Z) :
  (next_trading_day cal d = Ok NaT
   /\ forall s, in_window d s -> d < s -> is_session cal s = false)
  \/
  (exists n, next_trading_day cal d = Ok (Ts (midnight n))
             /\ in_window d n /\ d < n /\ is_session cal n = true
             /\ forall s, in_window d s -> d < s -> is_session cal s = true -> n <= s).
Proof.
  destruct (window_bounds d) as [b [E0 [E9 Hb]]].
  unfold next_trading_day. rewrite E0, E9. cbn [bind].
  set (L := filter _ _).
  assert (HL : forall t, In t L <->
            exists n, t = midnight n /\ rollforward d <= n <= b
                      /\ is_session cal n = true /\ d < n).
  { intros t. unfold L. rewrite filter_In, in_valid_days.
    rewrite !date_of_midnight. unfold ts_gt, ts_lt. rewrite Z.ltb_lt. split.
    - intros [[n [-> [R S]]] G]. apply (proj1 (midnight_lt _ _)) in G. exists n. auto.
    - intros [n [-> [R [S G]]]]. split; [exists n; auto | now apply (proj2 (midnight_lt _ _))]. }
  destruct L as [| x xs] eqn:EL.
  - left. split; [reflexivity |].
    intros s W G. apply in_window_iff in W. destruct W as [b' [E' R]].
    rewrite E9 in E'. inversion E' as [E'']. apply (f_equal date_of) in E''.
    rewrite !date_of_midnight in E''. subst b'.
    destruct (is_session cal s) eqn:S; [| reflexivity].
    exfalso. apply (proj2 (HL (midnight s))). exists s. auto.
  - right. destruct (index_min_spec (x :: xs)) as [m [Em [Hm Hmin]]]; [discriminate |].
    destruct (proj1 (HL m) Hm) as [n [-> [R [S G]]]].
    exists n. rewrite Em. repeat split; auto.
    + apply in_window_iff. exists b. auto.
    + intros s W Gs Ss. apply in_window_iff in W. destruct W as [b' [E' R']].
      rewrite E9 in E'. inversion E' as [E'']. apply (f_equal date_of) in E''.
      rewrite !date_of_midnight in E''. subst b'.
      assert (In (midnight s) (x :: xs)) as Hs by (apply HL; exists s; auto).
      apply Hmin in Hs. unfold midnight, seconds_per_day in Hs. lia.
Qed.

(** ** The last completed session *)

Lemma sorted_app (l1 l2 : list Z) :
  StronglySorted Z.lt (l1 ++ l2) ->
  StronglySorted Z.lt l1 /\ forall x y, In x l1 -> In y l2 -> x < y.
Proof.
  induction l1 as [| a l1 IH]; simpl; intros Hs.
  - split; [constructor | contradiction].
  - inversion Hs as [| ? ? Hs' Ha]; subst.
    destruct (IH Hs') as [S1 S2]. rewrite Forall_forall in Ha. split.
    + constructor; [assumption |]. apply Forall_forall. intros x Hx.
      apply Ha. apply in_or_app. now left.
    + intros x y [<- | Hx] Hy; [| now apply S2].
      apply Ha. apply in_or_app. now right.
Qed.

Lemma in_year_sessions (cal : Calendar) (now s : Z) :
  In s (year_sessions cal now) <->
  new_year now <= s <= date_of now /\ is_session cal s = true.
Proof. unfold year_sessions. rewrite filter_In, in_day_span. tauto. Qed.

Lemma year_sessions_sorted (cal : Calendar) (now : Z) :
  StronglySorted Z.lt (year_sessions cal now).
Proof. apply filter_sorted, day_span_sorted. Qed.

Lemma schedule_close (cal : Calendar) (d : Z) :
  is_session cal d = true ->
  index_pos (schedule cal (midnight d) (midnight d)) 0
  = Ok {| row_session := midnight d; row_market_close := Ts (market_close cal d) |}.
Proof.
  intros H. unfold schedule. rewrite (valid_days_one _ _ H). simpl.
  now rewrite date_of_midnight.
Qed.

(** What [last_trading_day] does, by the sessions of the year so far. *)
Lemma last_trading_day_cases (cal : Calendar) (now : Z) :
  (year_sessions cal now = [] -> last_trading_day cal now = Raise IndexError)
  /\ (forall l d1, year_sessions cal now = l ++ [d1] ->
        market_close cal d1 < now ->
        last_trading_day cal now = Ok (Ts (market_close cal d1)))
  /\ (forall d1, year_sessions cal now = [d1] ->
        now <= market_close cal d1 ->
        last_trading_day cal now = Raise IndexError)
  /\ (forall l d2 d1, year_sessions cal now = l ++ [d2; d1] ->
        now <= market_close cal d1 ->
        last_trading_day cal now = Ok (Ts (market_close cal d2))).
Proof.
  assert (V : valid_days cal (midnight (new_year now)) now
              = map midnight (year_sessions cal now)).
  { unfold valid_days, year_sessions. now rewrite date_of_midnight. }
  assert (S : forall d, In d (year_sessions cal now) -> is_session cal d = true).
  { intros d Hd. now apply in_year_sessions in Hd. }
  repeat split.
  - intros E. unfold last_trading_day. rewrite V, E. reflexivity.
  - intros l d1 E Hc. unfold last_trading_day. rewrite V, E, map_app. simpl map.
    rewrite index_neg_last. cbn [bind].
    rewrite schedule_close by (apply S; rewrite E; apply in_or_app; right; now left).
    cbn [bind row_market_close]. unfold ts_gt, ts_lt.
    destruct (Z.ltb_spec (market_close cal d1) now); [reflexivity | lia].
  - intros d1 E Hc. unfold last_trading_day. rewrite V, E. simpl map.
    change [midnight d1] with ([] ++ [midnight d1]).
    rewrite index_neg_last. cbn [bind].
    rewrite schedule_close by (apply S; rewrite E; now left).
    cbn [bind row_market_close]. unfold ts_gt, ts_lt.
    destruct (Z.ltb_spec (market_close cal d1) now); [lia | reflexivity].
  - intros l d2 d1 E Hc. unfold last_trading_day. rewrite V, E, map_app. simpl map.
    replace (map midnight l ++ [midnight d2; midnight d1])
      with ((map midnight l ++ [midnight d2]) ++ [midnight d1])
      by (rewrite <- app_assoc; reflexivity).
    rewrite index_neg_last. cbn [bind].
    rewrite schedule_close
      by (apply S; rewrite E; apply in_or_app; right; right; now left).
    cbn [bind row_market_close]. unfold ts_gt, ts_lt.
    destruct (Z.ltb_spec (market_close cal d1) now); [lia |].
    rewrite <- app_assoc. simpl app. rewrite index_neg_last_but_one. cbn [bind].
    rewrite schedule_close
      by (apply S; rewrite E; apply in_or_app; right; now left).
    reflexivity.
Qed.

(** [last_trading_day] returns the close of some session whenever it
    returns. *)
Lemma last_trading_day_is_close (cal : Calendar) (now : Z) (t : Timestamp) :
  last_trading_day cal now = Ok t ->
  exists s, t = Ts (market_close cal s) /\ is_session cal s = true
            /\ new_year now <= s <= date_of now.
Proof.
  destruct (last_trading_day_cases cal now) as [H0 [H1 [H2 H3]]].
  intros E.
  destruct (snoc_cases (year_sessions cal now)) as [N | [[x Ex] | [l [y [x Ex]]]]].
  - rewrite (H0 N) in E. discriminate.
  - assert (Hx : In x (year_sessions cal now)) by (rewrite Ex; now left).
    apply in_year_sessions in Hx.
    destruct (Z.lt_ge_cases (market_close cal x) now) as [C | C].
    + rewrite (H1 [] x Ex C) in E. inversion E. exists x. tauto.
    + rewrite (H2 x Ex C) in E. discriminate.
  - assert (Hx : In x (year_sessions cal now))
      by (rewrite Ex; apply in_or_app; right; right; now left).
    assert (Hy : In y (year_sessions cal now))
      by (rewrite Ex; apply in_or_app; right; now left).
    apply in_year_sessions in Hx. apply in_year_sessions in Hy.
    destruct (Z.lt_ge_cases (market_close cal x) now) as [C | C].
    + assert (Ex' : year_sessions cal now = (l ++ [y]) ++ [x])
        by (rewrite <- app_assoc; exact Ex).
      rewrite (H1 _ x Ex' C) in E. inversion E. exists x. tauto.
    + rewrite (H3 l y x Ex C) in E. inversion E. exists y. tauto.
Qed.

(** ** The trading calendar oracle *)



Example last_completed_session_after_the_close :
  last_trading_day Sample.nyse (at_time (Sample.jan 5) 22 0)
  = Ok (Ts (at_time (Sample.jan 5) 21 0)).
Proof. vm_compute. reflexivity. Qed.

(** On the first session of the year, before its close, there is no session
    before it in the year: [valid_days[-2]] raises. *)
Example last_trading_day_first_session_of_year :
  last_trading_day Sample.nyse (at_time (Sample.jan 2) 15 0) = Raise IndexError.
Proof. vm_compute. reflexivity. Qed.

(** On a New Year's Day the year has no session yet: [valid_days[-1]]
    raises. *)
Example last_trading_day_new_years_day :
  last_trading_day Sample.nyse (at_time (Sample.jan 1) 15 0) = Raise IndexError.
Proof. vm_compute. reflexivity. Qed.

(** C2, as the source has it: when the current year holds, up to today,
    a session that closed strictly before [now], or two sessions,
    [last_trading_day] returns the close of the most recent trading session
    whose market close is strictly before [now], in UTC.  A session closing
    at [now] exactly is not yet counted: the session before it is
    returned. *)
Theorem last_trading_day_most_recent_closed (cal : Calendar) (now : Z) :
  close_in_day cal ->
  ((exists s, is_session cal s = true /\ new_year now <= s <= date_of now
              /\ market_close cal s < now)
   \/ (exists s1 s2, is_session cal s1 = true /\ is_session cal s2 = true
                     /\ new_year now <= s1 /\ s1 < s2 /\ s2 <= date_of now)) ->
  exists s,
    last_trading_day cal now = Ok (Ts (market_close cal s))
    /\ is_session cal s = true
    /\ market_close cal s < now
    /\ forall s', is_session cal s' = true -> market_close cal s' < now -> s' <= s.
Proof.
  intros Hclose Hyear.
  destruct (last_trading_day_cases cal now) as [H0 [H1 [H2 H3]]].
  pose proof (year_sessions_sorted cal now) as Hsorted.
  pose proof (midnight_le_now now) as Hnow.
  assert (Htoday : forall s', is_session cal s' = true -> market_close cal s' < now ->
                              s' <= date_of now).
  { intros s' Ss' Cs'. pose proof (Hclose s' Ss') as B.
    destruct (Z.le_gt_cases s' (date_of now)) as [L | G]; [assumption |].
    unfold midnight, seconds_per_day in *. lia. }
  assert (Hlast : forall l d1,
             year_sessions cal now = l ++ [d1] -> market_close cal d1 < now ->
             exists s,
               last_trading_day cal now = Ok (Ts (market_close cal s))
               /\ is_session cal s = true /\ market_close cal s < now
               /\ forall s', is_session cal s' = true -> market_close cal s' < now ->
                             s' <= s).
  { intros l d1 E C. exists d1.
    assert (Hd1 : In d1 (year_sessions cal now))
      by (rewrite E; apply in_or_app; right; now left).
    apply in_year_sessions in Hd1. destruct Hd1 as [Rd1 Sd1].
    split; [now apply (H1 l d1) |]. split; [assumption |]. split; [assumption |].
    intros s' Ss' Cs'. pose proof (Htoday s' Ss' Cs') as T.
    destruct (Z.le_gt_cases (new_year now) s') as [Y | Y]; [| lia].
    assert (Hs' : In s' (year_sessions cal now)) by (apply in_year_sessions; auto).
    rewrite E in Hs'. apply in_app_or in Hs'. destruct Hs' as [Hs' | [<- | []]]; [| lia].
    rewrite E in Hsorted. pose proof (sorted_snoc _ _ _ Hsorted Hs'). lia. }
  destruct (snoc_cases (year_sessions cal now)) as [N | [[x Ex] | [l [y [x Ex]]]]].
  - exfalso. destruct Hyear as [[s [Ss [Rs _]]] | [s1 [s2 [S1 [S2 [R1 [R12 R2]]]]]]].
    + assert (In s (year_sessions cal now)) as Hin by (apply in_year_sessions; auto).
      rewrite N in Hin. exact Hin.
    + assert (In s1 (year_sessions cal now)) as Hin
          by (apply in_year_sessions; split; [lia | assumption]).
      rewrite N in Hin. exact Hin.
  - destruct (Z.lt_ge_cases (market_close cal x) now) as [C | C].
    + apply (Hlast [] x Ex C).
    + exfalso. destruct Hyear as [[s [Ss [Rs Cs]]] | [s1 [s2 [S1 [S2 [R1 [R12 R2]]]]]]].
      * assert (In s (year_sessions cal now)) as Hin by (apply in_year_sessions; auto).
        rewrite Ex in Hin. destruct Hin as [<- | []]. lia.
      * assert (In s1 (year_sessions cal now)) as Hin1
            by (apply in_year_sessions; split; [lia | assumption]).
        assert (In s2 (year_sessions cal now)) as Hin2
            by (apply in_year_sessions; split; [lia | assumption]).
        rewrite Ex in Hin1, Hin2.
        destruct Hin1 as [<- | []]. destruct Hin2 as [<- | []]. lia.
  - assert (Ex' : year_sessions cal now = (l ++ [y]) ++ [x])
      by (rewrite <- app_assoc; exact Ex).
    destruct (Z.lt_ge_cases (market_close cal x) now) as [C | C].
    + apply (Hlast _ x Ex' C).
    + exists y.
      assert (Hx : In x (year_sessions cal now))
        by (rewrite Ex'; apply in_or_app; right; now left).
      assert (Hy : In y (year_sessions cal now))
        by (rewrite Ex'; apply in_or_app; left; apply in_or_app; right; now left).
      apply in_year_sessions in Hx. destruct Hx as [Rx Sx].
      apply in_year_sessions in Hy. destruct Hy as [Ry Sy].
      rewrite Ex' in Hsorted.
      assert (Hyx : y < x)
        by (apply (sorted_snoc _ _ _ Hsorted); apply in_or_app; right; now left).
      pose proof (Hclose y Sy) as By.
      split; [now apply (H3 l y x) |]. split; [assumption |].
      split; [unfold midnight, seconds_per_day in *; lia |].
      intros s' Ss' Cs'. pose proof (Htoday s' Ss' Cs') as T.
      destruct (Z.le_gt_cases (new_year now) s') as [Y | Y]; [| lia].
      assert (Hs' : In s' (year_sessions cal now)) by (apply in_year_sessions; auto).
      rewrite Ex' in Hs'. apply in_app_or in Hs'. destruct Hs' as [Hs' | [<- | []]]; [| lia].
      apply in_app_or in Hs'. destruct Hs' as [Hs' | [<- | []]]; [| lia].
      apply sorted_app in Hsorted. destruct Hsorted as [Hsorted _].
      pose proof (sorted_snoc _ _ _ Hsorted Hs'). lia.
Qed.

Lemma last_trading_day_most_recent_closed_witness :
  exists s,
    last_trading_day Sample.nyse (at_time (Sample.jan 5) 22 0)
    = Ok (Ts (market_close Sample.nyse s))
    /\ is_session Sample.nyse s = true
    /\ market_close Sample.nyse s < at_time (Sample.jan 5) 22 0
    /\ forall s', is_session Sample.nyse s' = true ->
                  market_close Sample.nyse s' < at_time (Sample.jan 5) 22 0 -> s' <= s.
Proof.
  apply (last_trading_day_most_recent_closed Sample.nyse (at_time (Sample.jan 5) 22 0)).
  - intros d _.
    unfold Sample.nyse, market_close, at_time, midnight, seconds_per_day. lia.
  - left. exists (Sample.jan 5). vm_compute. repeat split; discriminate.
Defined.

(** C2 fails at the instant of the close: at 21:00 UTC on Friday 2024-01-05,
    that day's session closes at [now], yet [last_trading_day] returns the
    close of Thursday 2024-01-04. *)
Lemma last_trading_day_at_close_instant :
  let now := at_time (Sample.jan 5) 21 0 in
  is_session Sample.nyse (Sample.jan 5) = true
  /\ market_close Sample.nyse (Sample.jan 5) <= now
  /\ last_trading_day Sample.nyse now = Ok (Ts (market_close Sample.nyse (Sample.jan 4)))
  /\ market_close Sample.nyse (Sample.jan 4) < market_close Sample.nyse (Sample.jan 5).
Proof. vm_compute. repeat split; discriminate. Qed.

(** ** The planner's decision for one instrument *)

Lemma collect_date_start (cal : Calendar) (now : Z) (db : Collection)
      (i : string) (acc : list (Z * string)) :
  collect_date cal now db i acc
  = (o <- start_date cal now db i ;;
     Ok (acc ++ match o with Some d => [(d, i)] | None => [] end)).
Proof.
  unfold collect_date, start_date.
  destruct (get_last_update i db) as [lu |]; [| reflexivity].
  destruct (anything_to_download cal now lu) as [[|] | e]; simpl;
    try reflexivity.
  now rewrite app_nil_r.
Qed.

Lemma for_each_collect (cal : Calendar) (now : Z) (db : Collection)
      (tickers : list string) (acc l : list (Z * string)) :
  for_each tickers (collect_date cal now db) acc = Ok l ->
  (forall i, In i tickers -> exists o, start_date cal now db i = Ok o)
  /\ l = acc ++ entries_of (planned_start cal now db) tickers.
Proof.
  revert acc. induction tickers as [| i tickers IH]; intros acc; simpl.
  - intros E. inversion E. split; [contradiction | now rewrite app_nil_r].
  - rewrite collect_date_start. unfold planned_start.
    destruct (start_date cal now db i) as [o | e] eqn:Es; simpl; [| discriminate].
    intros E. destruct (IH _ E) as [Hall ->]. split.
    + intros j [<- | Hj]; [now exists o | now apply Hall].
    + now rewrite <- app_assoc.
Qed.

Lemma for_each_collect_ok (cal : Calendar) (now : Z) (db : Collection)
      (tickers : list string) (acc : list (Z * string)) :
  (forall i, In i tickers -> exists o, start_date cal now db i = Ok o) ->
  for_each tickers (collect_date cal now db) acc
  = Ok (acc ++ entries_of (planned_start cal now db) tickers).
Proof.
  revert acc. induction tickers as [| i tickers IH]; intros acc Hall; simpl.
  - now rewrite app_nil_r.
  - rewrite collect_date_start. unfold planned_start at 1.
    destruct (Hall i (or_introl eq_refl)) as [o Eo]. rewrite Eo. simpl.
    rewrite IH by (intros j Hj; apply Hall; now right).
    now rewrite <- app_assoc.
Qed.

Lemma in_entries_of (sd : string -> option Z) (tickers : list string)
      (d : Z) (i : string) :
  In (d, i) (entries_of sd tickers) <-> In i tickers /\ sd i = Some d.
Proof.
  unfold entries_of. rewrite in_flat_map. split.
  - intros [j [Hj Hin]]. destruct (sd j) as [d' |] eqn:E; simpl in Hin.
    + destruct Hin as [Heq | []]. inversion Heq; subst. auto.
    + contradiction.
  - intros [Hi E]. exists i. split; [assumption |]. rewrite E. now left.
Qed.

(** ** Grouping by date *)

Lemma in_unique_from (seen l : list Z) (x : Z) :
  In x (unique_from seen l) <-> In x l /\ ~ In x seen.
Proof.
  revert seen. induction l as [| a l IH]; intros seen; simpl; [tauto |].
  destruct (existsb (Z.eqb a) seen) eqn:E.
  - apply existsb_exists in E. destruct E as [y [Hy Ey]].
    apply Z.eqb_eq in Ey. subst y. rewrite IH. split.
    + intros [H1 H2]. auto.
    + intros [[<- | H1] H2]; [contradiction | auto].
  - assert (Ha : ~ In a seen).
    { intros Ha. assert (existsb (Z.eqb a) seen = true) as E'
          by (apply existsb_exists; exists a; split; [assumption | apply Z.eqb_refl]).
      congruence. }
    simpl. rewrite IH. simpl. split.
    + intros [<- | [H1 H2]]; [auto | split; [auto | tauto]].
    + intros [[<- | H1] H2]; [now left |].
      destruct (Z.eq_dec a x) as [-> | N]; [now left | right; tauto].
Qed.

Lemma in_unique (l : list Z) (x : Z) : In x (unique l) <-> In x l.
Proof. unfold unique. rewrite in_unique_from. simpl. tauto. Qed.

Lemma unique_from_NoDup (seen l : list Z) : NoDup (unique_from seen l).
Proof.
  revert seen. induction l as [| a l IH]; intros seen; simpl; [constructor |].
  destruct (existsb (Z.eqb a) seen); [apply IH |].
  constructor; [| apply IH].
  rewrite in_unique_from. simpl. tauto.
Qed.

Lemma unique_NoDup (l : list Z) : NoDup (unique l).
Proof. apply unique_from_NoDup. Qed.

Lemma existsb_eqb_in (x : Z) (l : list Z) : existsb (Z.eqb x) l = true <-> In x l.
Proof.
  rewrite existsb_exists. split.
  - intros [y [Hy E]]. apply Z.eqb_eq in E. now subst.
  - intros H. exists x. split; [assumption | apply Z.eqb_refl].
Qed.

Lemma existsb_eqb_ext (x : Z) (l1 l2 : list Z) :
  (In x l1 <-> In x l2) -> existsb (Z.eqb x) l1 = existsb (Z.eqb x) l2.
Proof.
  intros H. destruct (existsb (Z.eqb x) l1) eqn:E1, (existsb (Z.eqb x) l2) eqn:E2;
    try reflexivity.
  - apply existsb_eqb_in in E1. apply H in E1. apply existsb_eqb_in in E1. congruence.
  - apply existsb_eqb_in in E2. apply H in E2. apply existsb_eqb_in in E2. congruence.
Qed.

Lemma unique_from_snoc (seen l : list Z) (x : Z) :
  unique_from seen (l ++ [x])
  = if existsb (Z.eqb x) (seen ++ l) then unique_from seen l
    else unique_from seen l ++ [x].
Proof.
  revert seen. induction l as [| a l IH]; intros seen; simpl.
  - rewrite app_nil_r. now destruct (existsb (Z.eqb x) seen).
  - destruct (existsb (Z.eqb a) seen) eqn:E.
    + rewrite IH. apply existsb_eqb_in in E.
      rewrite (existsb_eqb_ext x (seen ++ a :: l) (seen ++ l)); [reflexivity |].
      rewrite !in_app_iff. simpl. split; [| tauto].
      intros [H | [<- | H]]; auto.
    + rewrite IH.
      rewrite (existsb_eqb_ext x (seen ++ a :: l) ((a :: seen) ++ l)).
      * now destruct (existsb (Z.eqb x) ((a :: seen) ++ l)).
      * simpl. rewrite !in_app_iff. simpl. tauto.
Qed.

Lemma unique_snoc (l : list Z) (x : Z) :
  unique (l ++ [x]) = if existsb (Z.eqb x) l then unique l else unique l ++ [x].
Proof. unfold unique. now rewrite unique_from_snoc. Qed.

Lemma group_by_date_snoc (l : list (Z * string)) (x : Z * string) :
  group_by_date (l ++ [x]) = dict_append (group_by_date l) (fst x) (snd x).
Proof. unfold group_by_date. now rewrite fold_left_app. Qed.

Lemma dict_append_keys (dict : list (Z * list string)) (k : Z) (v : string) :
  map fst (dict_append dict k v)
  = if existsb (Z.eqb k) (map fst dict) then map fst dict else map fst dict ++ [k].
Proof.
  induction dict as [| [k' v'] dict IH]; simpl; [reflexivity |].
  rewrite (Z.eqb_sym k k').
  destruct (Z.eqb_spec k' k) as [-> | N]; simpl; [reflexivity |].
  rewrite IH. now destruct (existsb (Z.eqb k) (map fst dict)).
Qed.

Lemma dict_get_append (dict : list (Z * list string)) (k k' : Z) (v : string) :
  dict_get (dict_append dict k' v) k
  = if k' =? k then dict_get dict k ++ [v] else dict_get dict k.
Proof.
  induction dict as [| [k0 v0] dict IH]; simpl.
  - now destruct (k' =? k).
  - destruct (Z.eqb_spec k0 k') as [-> | N0]; simpl.
    + now destruct (k' =? k).
    + destruct (Z.eqb_spec k0 k) as [-> | N1].
      * destruct (Z.eqb_spec k' k); [congruence | reflexivity].
      * exact IH.
Qed.

Lemma group_by_date_keys (l : list (Z * string)) :
  map fst (group_by_date l) = unique (map fst l).
Proof.
  induction l as [| x l IH] using rev_ind; [reflexivity |].
  rewrite group_by_date_snoc, dict_append_keys, map_app. simpl map.
  rewrite unique_snoc, IH.
  rewrite (existsb_eqb_ext (fst x) (unique (map fst l)) (map fst l))
    by apply in_unique.
  reflexivity.
Qed.

Lemma group_by_date_get (l : list (Z * string)) (k : Z) :
  dict_get (group_by_date l) k = map snd (filter (fun p => fst p =? k) l).
Proof.
  induction l as [| x l IH] using rev_ind; [reflexivity |].
  rewrite group_by_date_snoc, dict_get_append, filter_app, map_app, IH. simpl.
  destruct (fst x =? k); simpl; [reflexivity | now rewrite app_nil_r].
Qed.

Lemma dict_get_in (dict : list (Z * list string)) (k : Z) (v : list string) :
  NoDup (map fst dict) -> In (k, v) dict -> dict_get dict k = v.
Proof.
  induction dict as [| [k0 v0] dict IH]; simpl; [contradiction |].
  intros Hnd [E | Hin].
  - inversion E; subst. now rewrite Z.eqb_refl.
  - inversion Hnd as [| ? ? Hk Hnd']; subst.
    destruct (Z.eqb_spec k0 k) as [-> | N]; [| now apply IH].
    exfalso. apply Hk. apply in_map_iff. exists (k, v). auto.
Qed.

(** ** The plan *)

Lemma in_filter_date (l : list (Z * string)) (d : Z) (i : string) :
  In i (map snd (filter (fun p => fst p =? d) l)) <-> In (d, i) l.
Proof.
  rewrite in_map_iff. split.
  - intros [[d' i'] [E H]]. apply filter_In in H. destruct H as [H Hd].
    simpl in *. apply Z.eqb_eq in Hd. now subst.
  - intros H. exists (d, i). split; [reflexivity |].
    apply filter_In. split; [assumption | apply Z.eqb_refl].
Qed.

(** The plan is the grouping of the needed [(date, ticker)] pairs: its dates
    are the distinct start dates in order of first appearance, and a batch
    holds the tickers of its date in the order of the ticker list. *)
Lemma plan_shape (cal : Calendar) (now : Z) (db : Collection)
      (tickers : list string) (plan : list SyncBatch) :
  calculate_downloads cal now db tickers = Ok plan ->
  (forall i, In i tickers -> exists o, start_date cal now db i = Ok o)
  /\ map batch_date plan
     = unique (map fst (entries_of (planned_start cal now db) tickers))
  /\ forall b, In b plan ->
       batch_tickers b
       = map snd (filter (fun p => fst p =? batch_date b)
                         (entries_of (planned_start cal now db) tickers)).
Proof.
  unfold calculate_downloads.
  destruct (for_each tickers (collect_date cal now db) []) as [l | e] eqn:E;
    simpl; [| discriminate].
  destruct (for_each_collect _ _ _ _ _ _ E) as [Hall ->]. simpl.
  intros P. inversion P as [P']. clear P. split; [assumption |]. split.
  - rewrite map_map. simpl. apply group_by_date_keys.
  - intros b Hb. apply in_map_iff in Hb. destruct Hb as [[k v] [<- Hkv]]. simpl.
    rewrite <- group_by_date_get. symmetry. apply dict_get_in; [| assumption].
    rewrite group_by_date_keys. apply unique_NoDup.
Qed.

Lemma planner_returns (cal : Calendar) (now : Z) (db : Collection)
      (tickers : list string) :
  (forall i, In i tickers -> exists o, start_date cal now db i = Ok o) ->
  exists plan, calculate_downloads cal now db tickers = Ok plan.
Proof.
  intros Hall. unfold calculate_downloads.
  rewrite for_each_collect_ok by assumption. simpl. eauto.
Qed.

Lemma plan_membership (cal : Calendar) (now : Z) (db : Collection)
      (tickers : list string) (plan : list SyncBatch) :
  calculate_downloads cal now db tickers = Ok plan ->
  forall d i,
    in_plan plan d i <-> In i tickers /\ start_date cal now db i = Ok (Some d).
Proof.
  intros P. destruct (plan_shape _ _ _ _ _ P) as [Hall [Hdates Htick]].
  assert (Hsd : forall d i, In i tickers ->
            (planned_start cal now db i = Some d
             <-> start_date cal now db i = Ok (Some d))).
  { intros d i Hi. unfold planned_start. destruct (Hall i Hi) as [o ->].
    split; congruence. }
  intros d i. split.
  - intros [b [Hb [<- Hi]]]. rewrite (Htick b Hb) in Hi.
    apply in_filter_date, in_entries_of in Hi. destruct Hi as [Hi Hs].
    split; [assumption | now apply Hsd].
  - intros [Hi Hs]. apply Hsd in Hs; [| assumption].
    assert (He : In (d, i) (entries_of (planned_start cal now db) tickers))
      by (apply in_entries_of; auto).
    assert (Hd : In d (map batch_date plan)).
    { rewrite Hdates. apply in_unique. apply in_map_iff. exists (d, i). auto. }
    apply in_map_iff in Hd. destruct Hd as [b [Eb Hb]].
    exists b. split; [assumption |]. split; [assumption |].
    rewrite (Htick b Hb), Eb. now apply in_filter_date.
Qed.

Lemma plan_dates_NoDup (cal : Calendar) (now : Z) (db : Collection)
      (tickers : list string) (plan : list SyncBatch) :
  calculate_downloads cal now db tickers = Ok plan -> NoDup (map batch_date plan).
Proof.
  intros P. destruct (plan_shape _ _ _ _ _ P) as [_ [-> _]]. apply unique_NoDup.
Qed.

Lemma same_date_same_batch (plan : list SyncBatch) (b b' : SyncBatch) :
  NoDup (map batch_date plan) ->
  In b plan -> In b' plan -> batch_date b = batch_date b' -> b = b'.
Proof.
  induction plan as [| a plan IH]; simpl; [contradiction |].
  intros Hnd Hb Hb' E. inversion Hnd as [| ? ? Ha Hnd']; subst.
  destruct Hb as [-> | Hb], Hb' as [-> | Hb']; auto.
  - exfalso. apply Ha. rewrite E. now apply in_map.
  - exfalso. apply Ha. rewrite <- E. now apply in_map.
Qed.

Lemma get_last_update_none (i : string) (db : Collection) :
  get_last_update i db = None <->
  forall doc, In doc (documents db) -> doc_ticker doc <> i.
Proof.
  unfold get_last_update.
  destruct (map doc_date (filter _ (documents db))) as [| d ds] eqn:E; split.
  - intros _ doc Hdoc Hi.
    assert (In (doc_date doc)
               (map doc_date
                    (filter (fun doc => String.eqb (doc_ticker doc) i) (documents db)))) as H.
    { apply in_map, filter_In. split; [assumption | now apply String.eqb_eq]. }
    rewrite E in H. exact H.
  - reflexivity.
  - discriminate.
  - intros H. exfalso.
    assert (In d (map doc_date
                      (filter (fun doc => String.eqb (doc_ticker doc) i) (documents db))))
      as Hd by (rewrite E; now left).
    apply in_map_iff in Hd. destruct Hd as [doc [_ Hdoc]].
    apply filter_In in Hdoc. destruct Hdoc as [Hdoc Hi].
    apply String.eqb_eq in Hi. exact (H doc Hdoc Hi).
Qed.

Example plan_of_the_sample :
  calculate_downloads Sample.nyse (at_time (Sample.jan 5) 22 0) SampleStore.store
                      ["A"%string; "B"%string; "N"%string; "C"%string; "D"%string]
  = Ok [ {| batch_date := Sample.jan 3; batch_tickers := ["A"%string; "C"%string] |};
         {| batch_date := Sample.jan 4; batch_tickers := ["B"%string] |};
         {| batch_date := BEGINNING_DATE; batch_tickers := ["N"%string] |} ].
Proof. vm_compute. reflexivity. Qed.

(** ** The synchronization planner *)

Lemma next_trading_day_returns (cal : Calendar) (d : Z) :
  exists t, next_trading_day cal d = Ok t.
Proof.
  destruct (next_trading_day_cases cal d) as [[E _] | [n [E _]]]; eauto.
Qed.

Lemma start_date_present (cal : Calendar) (now : Z) (db : Collection)
      (i : string) (lu : Z) (next last : Timestamp) :
  get_last_update i db = Some lu ->
  next_trading_day cal lu = Ok next ->
  last_trading_day cal now = Ok last ->
  start_date cal now db i = Ok (if ts_lt next last then Some lu else None).
Proof.
  intros L N T. unfold start_date, anything_to_download. now rewrite L, N, T.
Qed.

Lemma start_date_returns (cal : Calendar) (now : Z) (db : Collection)
      (i : string) (last : Timestamp) :
  last_trading_day cal now = Ok last -> exists o, start_date cal now db i = Ok o.
Proof.
  intros T. destruct (get_last_update i db) as [lu |] eqn:L.
  - destruct (next_trading_day_returns cal lu) as [next N].
    rewrite (start_date_present _ _ _ _ _ _ _ L N T). eauto.
  - unfold start_date. rewrite L. eauto.
Qed.

Lemma midnight_before_close (cal : Calendar) (n s : Z) :
  close_in_day cal -> is_session cal s = true ->
  (ts_lt (Ts (midnight n)) (Ts (market_close cal s)) = true <-> n <= s).
Proof.
  intros Hc Hs. pose proof (Hc s Hs) as B. unfold ts_lt. rewrite Z.ltb_lt.
  unfold midnight, seconds_per_day in *. lia.
Qed.

(** C1, as the source has it: an instrument whose last known date [lu] is
    present is in the plan, in the batch starting at [lu], exactly when
    [next_trading_day lu] is a session whose midnight is before the close
    that [last_trading_day] returns, that is, when the next session after
    [lu] is on or before the last completed session; otherwise it is in no
    batch. *)
Theorem planner_includes_present_instrument
        (cal : Calendar) (now : Z) (db : Collection) (tickers : list string)
        (i : string) (lu : Z) (last : Timestamp) :
  close_in_day cal ->
  In i tickers ->
  get_last_update i db = Some lu ->
  last_trading_day cal now = Ok last ->
  exists plan s,
    calculate_downloads cal now db tickers = Ok plan
    /\ last = Ts (market_close cal s) /\ is_session cal s = true
    /\ (in_plan plan lu i <->
        exists n, next_trading_day cal lu = Ok (Ts (midnight n)) /\ n <= s)
    /\ ((forall d, ~ in_plan plan d i) <->
        ~ exists n, next_trading_day cal lu = Ok (Ts (midnight n)) /\ n <= s).
Proof.
  intros Hc Hi L T.
  destruct (planner_returns cal now db tickers) as [plan P];
    [intros j _; now apply (start_date_returns _ _ _ _ last) |].
  destruct (last_trading_day_is_close _ _ _ T) as [s [-> [Ss _]]].
  exists plan, s. split; [assumption |]. split; [reflexivity |]. split; [assumption |].
  pose proof (plan_membership _ _ _ _ _ P) as M.
  assert (Hin : forall d, in_plan plan d i <->
            d = lu /\ exists n, next_trading_day cal lu = Ok (Ts (midnight n)) /\ n <= s).
  { intros d. rewrite M.
    destruct (next_trading_day_cases cal lu) as [[N _] | [n [N _]]];
      rewrite (start_date_present _ _ _ _ _ _ _ L N T).
    - simpl. split.
      + intros [_ E]. discriminate.
      + intros [_ [n [E _]]]. rewrite N in E. discriminate.
    - destruct (ts_lt (Ts (midnight n)) (Ts (market_close cal s))) eqn:C.
      + apply (midnight_before_close cal n s Hc Ss) in C. split.
        * intros [_ E]. inversion E. subst d. split; [reflexivity |]. exists n. auto.
        * intros [-> _]. auto.
      + split; [intros [_ E]; discriminate |].
        intros [_ [n' [E Hn']]]. rewrite N in E. inversion E as [E'].
        apply (f_equal date_of) in E'. rewrite !date_of_midnight in E'. subst n'.
        apply (midnight_before_close cal n s Hc Ss) in Hn'. congruence. }
  split.
  - rewrite Hin. tauto.
  - split.
    + intros H C. apply (H lu). apply Hin. auto.
    + intros H d C. apply Hin in C. tauto.
Qed.

Lemma planner_includes_present_instrument_witness :
  exists plan s,
    calculate_downloads Sample.nyse (at_time (Sample.jan 5) 22 0) SampleStore.store
                        ["A"%string; "B"%string; "D"%string] = Ok plan
    /\ Ts (market_close Sample.nyse (Sample.jan 5)) = Ts (market_close Sample.nyse s)
    /\ is_session Sample.nyse s = true
    /\ (in_plan plan (Sample.jan 4) "B" <->
        exists n, next_trading_day Sample.nyse (Sample.jan 4) = Ok (Ts (midnight n))
                  /\ n <= s)
    /\ ((forall d, ~ in_plan plan d "B") <->
        ~ exists n, next_trading_day Sample.nyse (Sample.jan 4) = Ok (Ts (midnight n))
                    /\ n <= s).
Proof.
  apply (planner_includes_present_instrument
           Sample.nyse (at_time (Sample.jan 5) 22 0) SampleStore.store
           ["A"%string; "B"%string; "D"%string] "B" (Sample.jan 4)
           (Ts (market_close Sample.nyse (Sample.jan 5)))).
  - intros d _.
    unfold Sample.nyse, market_close, at_time, midnight, seconds_per_day. lia.
  - simpl. auto.
  - reflexivity.
  - reflexivity.
Defined.

(** C1 fails where the next session after the last known date is the last
    completed session itself: at 22:00 UTC on Friday 2024-01-05, with the
    close at 21:00 UTC, B has data up to Thursday 2024-01-04; its next
    session, 2024-01-05, is not earlier than the last completed session,
    2024-01-05, and still B is planned from 2024-01-04. *)
Lemma planner_includes_when_next_is_last :
  let now := at_time (Sample.jan 5) 22 0 in
  get_last_update "B" SampleStore.store = Some (Sample.jan 4)
  /\ next_trading_day Sample.nyse (Sample.jan 4) = Ok (Ts (midnight (Sample.jan 5)))
  /\ last_trading_day Sample.nyse now = Ok (Ts (market_close Sample.nyse (Sample.jan 5)))
  /\ Sample.jan 5 >= date_of (market_close Sample.nyse (Sample.jan 5))
  /\ calculate_downloads Sample.nyse now SampleStore.store ["A"%string; "B"%string]
     = Ok [ {| batch_date := Sample.jan 3; batch_tickers := ["A"%string] |};
            {| batch_date := Sample.jan 4; batch_tickers := ["B"%string] |} ].
Proof. vm_compute. repeat split; discriminate. Qed.

(** C3, as the source has it: [next_trading_day] never raises; when the
    window holds no session after the date it returns [NaT], every
    comparison with which is false, so that [calculate_downloads] leaves the
    instrument out of the plan and goes on to return it. *)
Theorem planner_skips_when_no_session
        (cal : Calendar) (now : Z) (db : Collection) (tickers : list string)
        (i : string) (lu : Z) (last : Timestamp) :
  In i tickers ->
  get_last_update i db = Some lu ->
  (forall s, in_window lu s -> lu < s -> is_session cal s = false) ->
  last_trading_day cal now = Ok last ->
  next_trading_day cal lu = Ok NaT
  /\ anything_to_download cal now lu = Ok false
  /\ exists plan,
       calculate_downloads cal now db tickers = Ok plan
       /\ forall d, ~ in_plan plan d i.
Proof.
  intros Hi L Hnone T.
  assert (N : next_trading_day cal lu = Ok NaT).
  { destruct (next_trading_day_cases cal lu) as [[N _] | [n [_ [W [G [S _]]]]]];
      [assumption |].
    rewrite (Hnone n W G) in S. discriminate. }
  split; [assumption |]. split.
  - unfold anything_to_download. rewrite N, T. reflexivity.
  - destruct (planner_returns cal now db tickers) as [plan P];
      [intros j _; now apply (start_date_returns _ _ _ _ last) |].
    exists plan. split; [assumption |].
    intros d C. apply (plan_membership _ _ _ _ _ P) in C. destruct C as [_ C].
    rewrite (start_date_present _ _ _ _ _ _ _ L N T) in C. discriminate.
Qed.

Lemma no_session_in_closed_fortnight (s : Z) :
  in_window (Sample.jan 5) s -> Sample.jan 5 < s ->
  is_session SampleStore.closed_fortnight s = false.
Proof.
  intros [first [last [F [L R]]]] G.
  assert (Ef : first = midnight (Sample.jan 5))
    by (vm_compute in F; vm_compute; congruence).
  assert (El : last = midnight (Sample.jan 18))
    by (vm_compute in L; vm_compute; congruence).
  subst first last. rewrite !date_of_midnight in R.
  change (Sample.jan 5) with 19727 in *. change (Sample.jan 18) with 19740 in *.
  assert (H : In s (day_span 19728 19740)) by (apply in_day_span; lia).
  vm_compute in H.
  repeat (destruct H as [<- | H]; [reflexivity |]). contradiction.
Qed.

Lemma planner_skips_when_no_session_witness :
  next_trading_day SampleStore.closed_fortnight (Sample.jan 5) = Ok NaT
  /\ anything_to_download SampleStore.closed_fortnight
                          (at_time (Sample.jan 22) 22 0) (Sample.jan 5) = Ok false
  /\ exists plan,
       calculate_downloads SampleStore.closed_fortnight (at_time (Sample.jan 22) 22 0)
                           SampleStore.store ["D"%string] = Ok plan
       /\ forall d, ~ in_plan plan d "D".
Proof.
  apply (planner_skips_when_no_session
           SampleStore.closed_fortnight (at_time (Sample.jan 22) 22 0)
           SampleStore.store ["D"%string] "D" (Sample.jan 5)
           (Ts (market_close SampleStore.closed_fortnight (Sample.jan 22)))).
  - simpl. auto.
  - reflexivity.
  - exact no_session_in_closed_fortnight.
  - reflexivity.
Defined.

(** C3 fails on a calendar closed for the two weeks after Friday
    2024-01-05: the window of [next_trading_day] holds no session after that
    date, [next_trading_day] returns [NaT] and raises nothing, and the
    planner returns the empty plan, so that D, whose data ends on 2024-01-05
    while the session of 2024-01-22 is completed, is passed over. *)
Lemma planner_no_session_not_raised :
  let now := at_time (Sample.jan 22) 22 0 in
  (forall s, in_window (Sample.jan 5) s -> Sample.jan 5 < s ->
             is_session SampleStore.closed_fortnight s = false)
  /\ next_trading_day SampleStore.closed_fortnight (Sample.jan 5) = Ok NaT
  /\ get_last_update "D" SampleStore.store = Some (Sample.jan 5)
  /\ last_trading_day SampleStore.closed_fortnight now
     = Ok (Ts (market_close SampleStore.closed_fortnight (Sample.jan 22)))
  /\ calculate_downloads SampleStore.closed_fortnight now SampleStore.store ["D"%string]
     = Ok [].
Proof.
  split; [exact no_session_in_closed_fortnight |].
  vm_compute. repeat split.
Qed.

(** C5: an instrument of the list with no document in the store is in the
    batch of the plan that starts at [BEGINNING_DATE], which is
    2015-01-01. *)
Theorem planner_backfills_absent_instrument
        (cal : Calendar) (now : Z) (db : Collection) (tickers : list string)
        (i : string) (plan : list SyncBatch) :
  In i tickers ->
  (forall doc, In doc (documents db) -> doc_ticker doc <> i) ->
  calculate_downloads cal now db tickers = Ok plan ->
  get_last_update i db = None
  /\ in_plan plan BEGINNING_DATE i
  /\ (forall d, in_plan plan d i -> d = BEGINNING_DATE)
  /\ BEGINNING_DATE = days_from_civil 2015 1 1.
Proof.
  intros Hi Hdocs P. apply get_last_update_none in Hdocs.
  pose proof (plan_membership _ _ _ _ _ P) as M.
  assert (S : start_date cal now db i = Ok (Some BEGINNING_DATE))
    by (unfold start_date; now rewrite Hdocs).
  split; [assumption |]. split; [apply M; auto |]. split; [| reflexivity].
  intros d C. apply M in C. destruct C as [_ C]. congruence.
Qed.

Lemma planner_backfills_absent_instrument_witness :
  get_last_update "N" SampleStore.store = None
  /\ in_plan [ {| batch_date := Sample.jan 3; batch_tickers := ["A"%string] |};
               {| batch_date := BEGINNING_DATE; batch_tickers := ["N"%string] |} ]
             BEGINNING_DATE "N"
  /\ (forall d,
         in_plan [ {| batch_date := Sample.jan 3; batch_tickers := ["A"%string] |};
                   {| batch_date := BEGINNING_DATE; batch_tickers := ["N"%string] |} ]
                 d "N" -> d = BEGINNING_DATE)
  /\ BEGINNING_DATE = days_from_civil 2015 1 1.
Proof.
  apply (planner_backfills_absent_instrument
           Sample.nyse (at_time (Sample.jan 5) 22 0) SampleStore.store
           ["A"%string; "N"%string] "N").
  - simpl. auto.
  - intros doc Hdoc. simpl in Hdoc.
    repeat (destruct Hdoc as [<- | Hdoc]; [discriminate |]). contradiction.
  - vm_compute. reflexivity.
Defined.

(** C4: the plan partitions the instruments that need data by start date.
    Two instruments with the same start date are in one batch, two with
    different start dates are in no common batch, an instrument that needs
    data is in exactly one batch, one that needs none is in no batch, and the
    plan is empty exactly when no instrument of the list needs data. *)
Theorem plan_is_partition_by_start_date
        (cal : Calendar) (now : Z) (db : Collection) (tickers : list string)
        (plan : list SyncBatch) :
  calculate_downloads cal now db tickers = Ok plan ->
  partition_by_start_date (start_date cal now db) tickers plan.
Proof.
  intros P. unfold partition_by_start_date.
  pose proof (plan_membership _ _ _ _ _ P) as M.
  pose proof (plan_dates_NoDup _ _ _ _ _ P) as Hnd.
  assert (Min : forall b i, In b plan -> In i (batch_tickers b) ->
                  In i tickers /\ start_date cal now db i = Ok (Some (batch_date b))).
  { intros b i Hb Hi. apply M. exists b. auto. }
  split; [| split; [| split; [| split; [| split; [| split]]]]].
  - intros i j d Hi Hj Si Sj.
    destruct (proj2 (M d i) (conj Hi Si)) as [b [Hb [Eb Ib]]].
    destruct (proj2 (M d j) (conj Hj Sj)) as [b' [Hb' [Eb' Ib']]].
    assert (b = b') as <- by (apply (same_date_same_batch plan); congruence).
    exists b. auto.
  - intros i j di dj b Si Sj Hne Hb Ii Ij.
    destruct (Min b i Hb Ii) as [_ Si']. destruct (Min b j Hb Ij) as [_ Sj'].
    congruence.
  - intros i d Hi Si.
    destruct (proj2 (M d i) (conj Hi Si)) as [b [Hb [Eb Ib]]].
    exists b. repeat split; auto.
    intros b' Hb' Ib'. destruct (Min b' i Hb' Ib') as [_ Si'].
    apply (same_date_same_batch plan); congruence.
  - intros i b Si Hb Ii. destruct (Min b i Hb Ii) as [_ Si']. congruence.
  - destruct (plan_shape _ _ _ _ _ P) as [Hall _]. split.
    + intros -> i Hi. destruct (Hall i Hi) as [[d |] E]; [| assumption].
      destruct (proj2 (M d i) (conj Hi E)) as [b [[] _]].
    + intros H. destruct plan as [| b plan]; [reflexivity | exfalso].
      destruct (plan_shape _ _ _ _ _ P) as [_ [Hd _]].
      assert (In (batch_date b)
                 (unique (map fst (entries_of (planned_start cal now db) tickers))))
        as Hin by (rewrite <- Hd; now left).
      apply in_unique, in_map_iff in Hin. destruct Hin as [[d i] [_ Hin]].
      apply in_entries_of in Hin. destruct Hin as [Hi Hs].
      unfold planned_start in Hs. rewrite (H i Hi) in Hs. discriminate.
  - assumption.
  - intros b Hb E.
    destruct (plan_shape _ _ _ _ _ P) as [_ [Hd Ht]].
    assert (In (batch_date b)
               (unique (map fst (entries_of (planned_start cal now db) tickers))))
      as Hin by (rewrite <- Hd; now apply in_map).
    apply in_unique, in_map_iff in Hin. destruct Hin as [[d i] [Ed Hin]].
    simpl in Ed. subst d.
    apply in_filter_date in Hin. rewrite <- (Ht b Hb), E in Hin. exact Hin.
Qed.

Lemma plan_is_partition_by_start_date_witness :
  partition_by_start_date
    (start_date Sample.nyse (at_time (Sample.jan 5) 22 0) SampleStore.store)
    ["A"%string; "B"%string; "N"%string; "C"%string; "D"%string]
    [ {| batch_date := Sample.jan 3; batch_tickers := ["A"%string; "C"%string] |};
      {| batch_date := Sample.jan 4; batch_tickers := ["B"%string] |};
      {| batch_date := BEGINNING_DATE; batch_tickers := ["N"%string] |} ].
Proof.
  apply (plan_is_partition_by_start_date
           Sample.nyse (at_time (Sample.jan 5) 22 0) SampleStore.store
           ["A"%string; "B"%string; "N"%string; "C"%string; "D"%string]).
  vm_compute. reflexivity.
Defined.

(** ** Determinism and order of the plan *)

Lemma for_each_ext {A S : Type} (l : list A) (f g : A -> S -> result S) (s : S) :
  (forall x s', In x l -> f x s' = g x s') -> for_each l f s = for_each l g s.
Proof.
  revert s. induction l as [| x l IH]; intros s H; simpl; [reflexivity |].
  rewrite (H x s (or_introl eq_refl)).
  destruct (g x s) as [s' | e]; simpl; [| reflexivity].
  apply IH. intros y s'' Hy. apply H. now right.
Qed.

(** C7: the plan is a function of the calendar, the clock reading, the
    ticker list in its order, and the last known dates of the listed
    tickers, so that a second run over a store with the same last known
    dates returns the same plan; and the batches of a plan come in the order
    of first encounter of their start dates. *)
Theorem planning_is_deterministic
        (cal : Calendar) (now : Z) (db db' : Collection) (tickers : list string) :
  (forall i, In i tickers -> get_last_update i db = get_last_update i db') ->
  calculate_downloads cal now db tickers = calculate_downloads cal now db' tickers
  /\ forall plan,
       calculate_downloads cal now db tickers = Ok plan ->
       first_encounter_order (planned_start cal now db) tickers plan.
Proof.
  intros H. split.
  - unfold calculate_downloads.
    rewrite (for_each_ext tickers (collect_date cal now db) (collect_date cal now db'));
      [reflexivity |].
    intros i acc Hi. unfold collect_date. now rewrite (H i Hi).
  - intros plan P. destruct (plan_shape _ _ _ _ _ P) as [_ [Hd Ht]].
    split; assumption.
Qed.

Lemma planning_is_deterministic_witness :
  calculate_downloads Sample.nyse (at_time (Sample.jan 5) 22 0) SampleStore.store
                      ["N"%string; "A"%string; "B"%string; "C"%string]
  = calculate_downloads Sample.nyse (at_time (Sample.jan 5) 22 0)
                        {| documents := rev (documents SampleStore.store);
                           unique_ticker_date := false |}
                        ["N"%string; "A"%string; "B"%string; "C"%string]
  /\ forall plan,
       calculate_downloads Sample.nyse (at_time (Sample.jan 5) 22 0) SampleStore.store
                           ["N"%string; "A"%string; "B"%string; "C"%string] = Ok plan ->
       first_encounter_order
         (planned_start Sample.nyse (at_time (Sample.jan 5) 22 0) SampleStore.store)
         ["N"%string; "A"%string; "B"%string; "C"%string] plan.
Proof.
  apply (planning_is_deterministic
           Sample.nyse (at_time (Sample.jan 5) 22 0) SampleStore.store
           {| documents := rev (documents SampleStore.store);
              unique_ticker_date := false |}
           ["N"%string; "A"%string; "B"%string; "C"%string]).
  intros i Hi. simpl in Hi.
  repeat (destruct Hi as [<- | Hi]; [reflexivity |]). contradiction.
Defined.

Example plan_order_of_the_sample :
  calculate_downloads Sample.nyse (at_time (Sample.jan 5) 22 0) SampleStore.store
                      ["N"%string; "C"%string; "B"%string; "A"%string]
  = Ok [ {| batch_date := BEGINNING_DATE; batch_tickers := ["N"%string] |};
         {| batch_date := Sample.jan 3; batch_tickers := ["C"%string; "A"%string] |};
         {| batch_date := Sample.jan 4; batch_tickers := ["B"%string] |} ].
Proof. vm_compute. reflexivity. Qed.

(** ** Fetch and normalize *)

Lemma for_each_append {A B : Type} (l : list A) (body : A -> list B -> result (list B))
      (g : A -> list B) (acc : list B) :
  (forall x acc', In x l -> body x acc' = Ok (acc' ++ g x)) ->
  for_each l body acc = Ok (acc ++ flat_map g l).
Proof.
  revert acc. induction l as [| x l IH]; intros acc H; simpl.
  - now rewrite app_nil_r.
  - rewrite (H x acc (or_introl eq_refl)). simpl.
    rewrite IH by (intros y acc' Hy; apply H; now right).
    now rewrite <- app_assoc.
Qed.

Lemma flat_map_singleton {A B : Type} (f : A -> B) (l : list A) :
  flat_map (fun x => [f x]) l = map f l.
Proof. induction l as [| x l IH]; simpl; [| rewrite IH]; reflexivity. Qed.

Lemma multi_record_of (cols : list ((string * string) * Column))
      (cell : string -> string -> Column) (t : string) (d : Z) :
  (forall f, In f price_fields -> loc label_eqb cols d (f, t) = Ok (cell f t d)) ->
  multi_record cols d t
  = Ok (record_of (cell "Open"%string t) (cell "High"%string t)
                  (cell "Low"%string t) (cell "Adj Close"%string t) t d).
Proof.
  intros H. unfold multi_record, price_fields in *.
  rewrite !H by (simpl; auto 6). reflexivity.
Qed.

Lemma normalize_multi (tickers : list string) (idx : list Z)
      (cols : list ((string * string) * Column)) (cell : string -> string -> Column) :
  (forall f t d, In f price_fields -> In t tickers ->
                 loc label_eqb cols d (f, t) = Ok (cell f t d)) ->
  normalize tickers {| index := idx; columns := MultiIndex cols |}
  = Ok (flat_map
          (fun d => map (fun t => record_of (cell "Open"%string t) (cell "High"%string t)
                                            (cell "Low"%string t)
                                            (cell "Adj Close"%string t) t d)
                        tickers)
          (unique idx)).
Proof.
  intros H. unfold normalize. simpl.
  rewrite (for_each_append (unique idx) _
             (fun d => map (fun t => record_of (cell "Open"%string t)
                                               (cell "High"%string t)
                                               (cell "Low"%string t)
                                               (cell "Adj Close"%string t) t d)
                           tickers)); [reflexivity |].
  intros d acc _.
  rewrite (for_each_append tickers _
             (fun t => [record_of (cell "Open"%string t) (cell "High"%string t)
                                  (cell "Low"%string t)
                                  (cell "Adj Close"%string t) t d])).
  - now rewrite flat_map_singleton.
  - intros t acc' Ht.
    rewrite (multi_record_of cols cell t d) by (intros f Hf; now apply H).
    reflexivity.
Qed.

Lemma normalize_flat (t : string) (rest : list string) (idx : list Z)
      (cols : list (string * Column)) (o h l c : Column) :
  (forall d, loc String.eqb cols d "Open"%string = Ok (o d)) ->
  (forall d, loc String.eqb cols d "High"%string = Ok (h d)) ->
  (forall d, loc String.eqb cols d "Low"%string = Ok (l d)) ->
  (forall d, loc String.eqb cols d "Adj Close"%string = Ok (c d)) ->
  normalize (t :: rest) {| index := idx; columns := Index cols |}
  = Ok (map (record_of o h l c t) (unique idx)).
Proof.
  intros Ho Hh Hl Hc. unfold normalize. simpl.
  rewrite (for_each_append (unique idx) _ (fun d => [record_of o h l c t d])).
  - now rewrite flat_map_singleton.
  - intros d acc _. unfold flat_record. rewrite Ho, Hh, Hl, Hc. reflexivity.
Qed.

Lemma pairs_of_records (cell : string -> string -> Column)
      (tickers : list string) (dates : list Z) :
  map (fun r => (doc_date r, doc_ticker r))
      (flat_map
         (fun d => map (fun t => record_of (cell "Open"%string t) (cell "High"%string t)
                                           (cell "Low"%string t)
                                           (cell "Adj Close"%string t) t d)
                       tickers)
         dates)
  = list_prod dates tickers.
Proof.
  induction dates as [| d dates IH]; simpl; [reflexivity |].
  rewrite map_app, IH, map_map. reflexivity.
Qed.

(** C8: for one instrument and the same dates, the flat response and the
    response keyed by (field, instrument) normalize to the same records, one
    per distinct date, with open, high and low from the Open, High and Low
    columns and close from the Adj Close column. *)
Theorem single_and_multi_responses_agree
        (yf_flat yf_multi : Provider) (t : string) (start : Z) (idx : list Z)
        (flat : list (string * Column)) (multi : list ((string * string) * Column))
        (o h l c : Column) :
  yf_flat [t] start = Ok {| index := idx; columns := Index flat |} ->
  yf_multi [t] start = Ok {| index := idx; columns := MultiIndex multi |} ->
  (forall d, loc String.eqb flat d "Open"%string = Ok (o d)) ->
  (forall d, loc String.eqb flat d "High"%string = Ok (h d)) ->
  (forall d, loc String.eqb flat d "Low"%string = Ok (l d)) ->
  (forall d, loc String.eqb flat d "Adj Close"%string = Ok (c d)) ->
  (forall d, loc label_eqb multi d ("Open"%string, t) = Ok (o d)) ->
  (forall d, loc label_eqb multi d ("High"%string, t) = Ok (h d)) ->
  (forall d, loc label_eqb multi d ("Low"%string, t) = Ok (l d)) ->
  (forall d, loc label_eqb multi d ("Adj Close"%string, t) = Ok (c d)) ->
  data_download yf_flat [t] start = Ok (Some (map (record_of o h l c t) (unique idx)))
  /\ data_download yf_multi [t] start = data_download yf_flat [t] start.
Proof.
  intros Ff Fm Fo Fh Fl Fc Mo Mh Ml Mc.
  assert (Ef : data_download yf_flat [t] start
               = Ok (Some (map (record_of o h l c t) (unique idx)))).
  { unfold data_download. rewrite Ff.
    now rewrite (normalize_flat t [] idx flat o h l c Fo Fh Fl Fc). }
  split; [exact Ef |]. rewrite Ef.
  unfold data_download. rewrite Fm.
  rewrite (normalize_multi [t] idx multi
             (fun f _ => if String.eqb f "Open" then o
                         else if String.eqb f "High" then h
                         else if String.eqb f "Low" then l
                         else c)).
  - simpl. rewrite <- flat_map_singleton. reflexivity.
  - intros f t' d Hf [<- | []]. unfold price_fields in Hf. simpl in Hf.
    destruct Hf as [<- | [<- | [<- | [<- | []]]]]; simpl; auto.
Qed.

Lemma single_and_multi_responses_agree_witness :
  data_download (fun _ _ => Ok SampleFrames.flat_aapl) ["AAPL"%string] (Sample.jan 2)
  = Ok (Some (map (record_of SampleFrames.aapl_open SampleFrames.aapl_high
                             SampleFrames.aapl_low SampleFrames.aapl_adj_close
                             "AAPL")
                  (unique [Sample.jan 2; Sample.jan 3])))
  /\ data_download (fun _ _ => Ok SampleFrames.multi_aapl) ["AAPL"%string] (Sample.jan 2)
     = data_download (fun _ _ => Ok SampleFrames.flat_aapl) ["AAPL"%string] (Sample.jan 2).
Proof.
  apply (single_and_multi_responses_agree
           (fun _ _ => Ok SampleFrames.flat_aapl)
           (fun _ _ => Ok SampleFrames.multi_aapl)
           "AAPL" (Sample.jan 2) [Sample.jan 2; Sample.jan 3]
           [("Adj Close"%string, SampleFrames.aapl_adj_close);
            ("Close"%string, SampleFrames.aapl_close);
            ("High"%string, SampleFrames.aapl_high);
            ("Low"%string, SampleFrames.aapl_low);
            ("Open"%string, SampleFrames.aapl_open)]
           [(("Adj Close"%string, "AAPL"%string), SampleFrames.aapl_adj_close);
            (("Close"%string, "AAPL"%string), SampleFrames.aapl_close);
            (("High"%string, "AAPL"%string), SampleFrames.aapl_high);
            (("Low"%string, "AAPL"%string), SampleFrames.aapl_low);
            (("Open"%string, "AAPL"%string), SampleFrames.aapl_open)]);
    try reflexivity; intros d; reflexivity.
Defined.

Lemma count_records_of_date (cell : string -> string -> Column)
      (tickers : list string) (d1 d : Z) (t' : string) :
  List.length
    (filter (fun r => (doc_date r =? d) && String.eqb (doc_ticker r) t')
            (map (fun t => record_of (cell "Open"%string t) (cell "High"%string t)
                                     (cell "Low"%string t)
                                     (cell "Adj Close"%string t) t d1)
                 tickers))
  = if d1 =? d then count_occ string_dec tickers t' else 0%nat.
Proof.
  induction tickers as [| t tickers IH]; simpl.
  - now destruct (d1 =? d).
  - destruct (d1 =? d) eqn:Ed; simpl.
    + destruct (String.eqb_spec t t') as [-> | N]; simpl.
      * destruct (string_dec t' t'); [now rewrite IH | congruence].
      * destruct (string_dec t t'); [congruence | exact IH].
    + exact IH.
Qed.

Lemma count_records_of_pair (cell : string -> string -> Column)
      (tickers : list string) (dates : list Z) (d : Z) (t' : string) :
  NoDup dates ->
  List.length
    (filter (fun r => (doc_date r =? d) && String.eqb (doc_ticker r) t')
            (flat_map
               (fun d1 => map (fun t => record_of (cell "Open"%string t)
                                                  (cell "High"%string t)
                                                  (cell "Low"%string t)
                                                  (cell "Adj Close"%string t) t d1)
                              tickers)
               dates))
  = if existsb (Z.eqb d) dates then count_occ string_dec tickers t' else 0%nat.
Proof.
  induction 1 as [| d1 dates Hd1 Hnd IH]; [reflexivity |].
  cbn [flat_map existsb]. rewrite filter_app, length_app, count_records_of_date, IH.
  rewrite (Z.eqb_sym d d1).
  destruct (Z.eqb_spec d1 d) as [-> | N]; simpl; [| reflexivity].
  destruct (existsb (Z.eqb d) dates) eqn:Ex; [| lia].
  apply existsb_eqb_in in Ex. contradiction.
Qed.

(** C10: when the response is keyed by (field, instrument) and carries the
    four price columns of every requested ticker, [data_download] returns
    one record for every pair of a distinct date of the response and a
    requested ticker, date by date in the order of the ticker list.  The
    dates are the dates of the index, each taken once; for a date of the
    index and a ticker there are as many records as the ticker list names
    the ticker; there are as many records as dates times tickers, each
    holding the cells of its ticker on its date, missing values included. *)
Theorem multi_response_yields_cartesian_product
        (yf_download : Provider) (t : string) (rest : list string) (start : Z)
        (idx : list Z) (multi : list ((string * string) * Column))
        (cell : string -> string -> Column) :
  yf_download (t :: rest) start = Ok {| index := idx; columns := MultiIndex multi |} ->
  (forall f t' d, In f price_fields -> In t' (t :: rest) ->
                  loc label_eqb multi d (f, t') = Ok (cell f t' d)) ->
  exists records,
    data_download yf_download (t :: rest) start = Ok (Some records)
    /\ map (fun r => (doc_date r, doc_ticker r)) records
       = list_prod (unique idx) (t :: rest)
    /\ NoDup (unique idx)
    /\ (forall d, In d (unique idx) <-> In d idx)
    /\ (forall d t', In d idx ->
          List.length
            (filter (fun r => (doc_date r =? d) && String.eqb (doc_ticker r) t') records)
          = count_occ string_dec (t :: rest) t')
    /\ (forall r, In r records -> In (doc_date r) idx /\ In (doc_ticker r) (t :: rest))
    /\ List.length records
       = (List.length (unique idx) * List.length (t :: rest))%nat
    /\ Forall (fun r =>
                 doc_open r = cell "Open"%string (doc_ticker r) (doc_date r)
                 /\ doc_high r = cell "High"%string (doc_ticker r) (doc_date r)
                 /\ doc_low r = cell "Low"%string (doc_ticker r) (doc_date r)
                 /\ doc_close r = cell "Adj Close"%string (doc_ticker r) (doc_date r))
              records.
Proof.
  intros Hdf Hcols. eexists. split.
  - unfold data_download. rewrite Hdf.
    rewrite (normalize_multi (t :: rest) idx multi cell Hcols). reflexivity.
  - split; [apply pairs_of_records |].
    split; [apply unique_NoDup |].
    split; [intros d; apply in_unique |].
    split; [| split; [| split]].
    + intros d t' Hd.
      rewrite (count_records_of_pair cell (t :: rest) (unique idx) d t'
                                     (unique_NoDup idx)).
      assert (existsb (Z.eqb d) (unique idx) = true) as ->
          by (apply existsb_eqb_in; now apply (proj2 (in_unique idx d))).
      reflexivity.
    + intros r Hr.
      apply in_flat_map in Hr. destruct Hr as [d [Hd Hr]].
      apply in_map_iff in Hr. destruct Hr as [t' [<- Ht']]. simpl.
      split; [now apply (proj1 (in_unique idx d)) | exact Ht'].
    + rewrite <- (length_map (fun r => (doc_date r, doc_ticker r))).
      rewrite pairs_of_records. apply length_prod.
    + apply Forall_forall. intros r Hr.
      apply in_flat_map in Hr. destruct Hr as [d [_ Hr]].
      apply in_map_iff in Hr. destruct Hr as [t' [<- _]]. simpl. auto.
Qed.

Lemma multi_response_yields_cartesian_product_witness :
  exists records,
    data_download (fun _ _ => Ok SampleFrames.multi_two)
                  ["AAPL"%string; "NEW"%string] (Sample.jan 2) = Ok (Some records)
    /\ map (fun r => (doc_date r, doc_ticker r)) records
       = list_prod (unique [Sample.jan 2; Sample.jan 3]) ["AAPL"%string; "NEW"%string]
    /\ NoDup (unique [Sample.jan 2; Sample.jan 3])
    /\ (forall d, In d (unique [Sample.jan 2; Sample.jan 3])
                  <-> In d [Sample.jan 2; Sample.jan 3])
    /\ (forall d t', In d [Sample.jan 2; Sample.jan 3] ->
          List.length
            (filter (fun r => (doc_date r =? d) && String.eqb (doc_ticker r) t') records)
          = count_occ string_dec ["AAPL"%string; "NEW"%string] t')
    /\ (forall r, In r records ->
                  In (doc_date r) [Sample.jan 2; Sample.jan 3]
                  /\ In (doc_ticker r) ["AAPL"%string; "NEW"%string])
    /\ List.length records
       = (List.length (unique [Sample.jan 2; Sample.jan 3])
          * List.length ["AAPL"%string; "NEW"%string])%nat
    /\ Forall (fun r =>
                 doc_open r = SampleFrames.two_cell "Open" (doc_ticker r) (doc_date r)
                 /\ doc_high r = SampleFrames.two_cell "High" (doc_ticker r) (doc_date r)
                 /\ doc_low r = SampleFrames.two_cell "Low" (doc_ticker r) (doc_date r)
                 /\ doc_close r
                    = SampleFrames.two_cell "Adj Close" (doc_ticker r) (doc_date r))
              records.
Proof.
  apply (multi_response_yields_cartesian_product
           (fun _ _ => Ok SampleFrames.multi_two) "AAPL" ["NEW"%string] (Sample.jan 2)
           [Sample.jan 2; Sample.jan 3] SampleFrames.multi_two_cols
           SampleFrames.two_cell).
  - reflexivity.
  - intros f t' d Hf Ht. unfold price_fields in Hf. simpl in Hf, Ht.
    destruct Ht as [<- | [<- | []]];
      destruct Hf as [<- | [<- | [<- | [<- | []]]]]; reflexivity.
Defined.

(** A date that the index repeats is taken once: one record per ticker. *)
Example repeated_date_gives_one_record :
  option_map (map (fun r => (doc_date r, doc_ticker r)))
             match data_download
                     (fun _ _ => Ok {| index := [Sample.jan 2; Sample.jan 3; Sample.jan 2];
                                       columns := MultiIndex SampleFrames.multi_two_cols |})
                     ["AAPL"%string; "NEW"%string] (Sample.jan 2) with
             | Ok (Some records) => Some records
             | _ => None
             end
  = Some [(Sample.jan 2, "AAPL"%string); (Sample.jan 2, "NEW"%string);
          (Sample.jan 3, "AAPL"%string); (Sample.jan 3, "NEW"%string)].
Proof. vm_compute. reflexivity. Qed.

Example records_of_the_listing :
  data_download (fun _ _ => Ok SampleFrames.multi_two)
                ["AAPL"%string; "NEW"%string] (Sample.jan 2)
  = Ok (Some [ {| doc_ticker := "AAPL"; doc_date := Sample.jan 2;
                  doc_open := 187.25; doc_high := 188.5;
                  doc_low := 183.75; doc_close := 184.5 |};
               {| doc_ticker := "NEW"; doc_date := Sample.jan 2;
                  doc_open := nan; doc_high := nan;
                  doc_low := nan; doc_close := nan |};
               {| doc_ticker := "AAPL"; doc_date := Sample.jan 3;
                  doc_open := 184.25; doc_high := 185.75;
                  doc_low := 183.5; doc_close := 183.125 |};
               {| doc_ticker := "NEW"; doc_date := Sample.jan 3;
                  doc_open := 12.5; doc_high := 12.5;
                  doc_low := 12.5; doc_close := 12.5 |} ]).
Proof. vm_compute. reflexivity. Qed.

(** ** The store and its unique index *)

Lemma same_key_iff (a b : PriceRecord) : same_key a b = true <-> doc_key a = doc_key b.
Proof.
  unfold same_key, doc_key. rewrite andb_true_iff, String.eqb_eq, Z.eqb_eq.
  split; [intros [-> ->]; reflexivity | intros E; inversion E; auto].
Qed.

Lemma existsb_same_key (d : PriceRecord) (stored : list PriceRecord) :
  existsb (same_key d) stored = true <-> In (doc_key d) (map doc_key stored).
Proof.
  rewrite existsb_exists, in_map_iff. split.
  - intros [x [Hx E]]. apply same_key_iff in E. exists x. auto.
  - intros [x [E Hx]]. exists x. split; [assumption |]. now apply same_key_iff.
Qed.

Lemma NoDup_snoc {A : Type} (l : list A) (x : A) :
  NoDup l -> ~ In x l -> NoDup (l ++ [x]).
Proof.
  induction l as [| a l IH]; simpl; intros Hnd Hx.
  - constructor; [intros [] | constructor].
  - inversion Hnd as [| ? ? Ha Hnd']; subst. constructor.
    + rewrite in_app_iff. simpl. intros [H | [H | []]]; [tauto | subst; tauto].
    + apply IH; tauto.
Qed.

Lemma insert_documents_unique (complete : bool) (docs stored stored' : list PriceRecord) :
  NoDup (map doc_key stored) ->
  insert_documents true complete docs stored = Ok stored' ->
  NoDup (map doc_key stored').
Proof.
  revert stored. induction docs as [| d docs IH]; intros stored Hnd; simpl.
  - intros E. inversion E. now subst.
  - destruct (existsb (same_key d) stored) eqn:Ex.
    + destruct complete; [discriminate | now apply IH].
    + apply IH. rewrite map_app. simpl. apply NoDup_snoc; [assumption |].
      intros Hin. apply existsb_same_key in Hin. congruence.
Qed.

Lemma import_bulk_keys_unique (col : Collection) (docs : list PriceRecord)
      (halt_on_error : bool) :
  keys_unique col -> keys_unique (snd (import_bulk col docs halt_on_error)).
Proof.
  intros [Hu Hnd]. unfold import_bulk. rewrite Hu.
  destruct (insert_documents true halt_on_error docs (documents col)) as [stored | e] eqn:E;
    simpl; [| split; assumption].
  split; [reflexivity |]. now apply (insert_documents_unique halt_on_error docs (documents col)).
Qed.

Lemma import_entries_keys_unique (yf : Provider) (plan : list SyncBatch) (col : Collection) :
  keys_unique col -> keys_unique (snd (import_entries yf plan col)).
Proof.
  revert col. induction plan as [| entry plan IH]; intros col H; simpl; [assumption |].
  destruct (data_download yf (batch_tickers entry) (batch_date entry)) as [[records |] | e];
    simpl; try assumption.
  pose proof (import_bulk_keys_unique col records true H) as H'.
  destruct (import_bulk col records true) as [[[] | e] col']; simpl in *.
  - now apply IH.
  - assumption.
Qed.

Lemma main_keys_unique (server : option Collection) (yf : Provider) (cal : Calendar)
      (now : Z) (tickers : list string) :
  keys_unique (init_db server) -> keys_unique (snd (main server yf cal now tickers)).
Proof.
  intros H. unfold main.
  destruct (calculate_downloads cal now (init_db server) tickers) as [plan | e];
    simpl; [| assumption].
  now apply import_entries_keys_unique.
Qed.

Lemma reachable_keys_unique (col : Collection) : reachable col -> keys_unique col.
Proof.
  induction 1 as [yf cal now tickers | col yf cal now tickers _ IH | col docs flag _ IH].
  - apply main_keys_unique. split; [reflexivity | constructor].
  - now apply main_keys_unique.
  - now apply import_bulk_keys_unique.
Qed.

Lemma count_key_absent (r : PriceRecord) (l : list PriceRecord) :
  existsb (same_key r) l = false -> filter (same_key r) l = [].
Proof.
  induction l as [| a l IH]; simpl; [reflexivity |].
  destruct (same_key r a); simpl; [discriminate | exact IH].
Qed.

Lemma count_key_present (r : PriceRecord) (l : list PriceRecord) :
  NoDup (map doc_key l) -> existsb (same_key r) l = true ->
  List.length (filter (same_key r) l) = 1%nat.
Proof.
  induction l as [| a l IH]; simpl; [discriminate |].
  intros Hnd. inversion Hnd as [| ? ? Ha Hnd']; subst.
  destruct (same_key r a) eqn:E; simpl.
  - intros _. rewrite count_key_absent; [reflexivity |].
    destruct (existsb (same_key r) l) eqn:Ex; [| reflexivity].
    exfalso. apply Ha. apply same_key_iff in E. rewrite <- E.
    now apply existsb_same_key.
  - now apply IH.
Qed.

Lemma import_one_count (col : Collection) (r : PriceRecord) (halt_on_error : bool) :
  keys_unique col ->
  existsb (same_key r) (documents (snd (import_bulk col [r] halt_on_error))) = true.
Proof.
  intros [Hu Hnd]. unfold import_bulk. rewrite Hu. simpl.
  destruct (existsb (same_key r) (documents col)) eqn:Ex.
  - destruct halt_on_error; simpl; assumption.
  - simpl. rewrite existsb_app. simpl.
    assert (same_key r r = true) as -> by now apply same_key_iff.
    now rewrite orb_true_r.
Qed.

(** C9, as the source has it: in a collection that [init_db] created, with
    its unique index on ticker and date, no run of [main] and no import
    leaves two documents with the same ticker and date, whatever was
    imported before: the keys of the documents are pairwise distinct, and
    after the same record is imported twice there is exactly one document
    with its ticker and date.  A collection that was there before is used as
    it is and is given no index. *)
Theorem unique_index_is_enforced (col : Collection) :
  reachable col ->
  NoDup (map doc_key (documents col))
  /\ forall (r : PriceRecord) (halt1 halt2 : bool),
       let once := snd (import_bulk col [r] halt1) in
       let twice := snd (import_bulk once [r] halt2) in
       List.length (filter (same_key r) (documents twice)) = 1%nat
       /\ NoDup (map doc_key (documents twice)).
Proof.
  intros R. pose proof (reachable_keys_unique col R) as K.
  split; [apply K |].
  intros r halt1 halt2 once twice.
  pose proof (reachable_keys_unique once (reach_import col [r] halt1 R)) as K1.
  pose proof (reachable_keys_unique twice (reach_import once [r] halt2
                                             (reach_import col [r] halt1 R))) as K2.
  split; [| apply K2].
  apply count_key_present; [apply K2 |].
  apply import_one_count. exact K1.
Qed.

Lemma unique_index_is_enforced_witness :
  NoDup (map doc_key (documents SampleRun.first_run))
  /\ forall (r : PriceRecord) (halt1 halt2 : bool),
       let once := snd (import_bulk SampleRun.first_run [r] halt1) in
       let twice := snd (import_bulk once [r] halt2) in
       List.length (filter (same_key r) (documents twice)) = 1%nat
       /\ NoDup (map doc_key (documents twice)).
Proof.
  apply (unique_index_is_enforced SampleRun.first_run).
  apply reach_first_run.
Defined.

(** C9 fails on a collection that existed before the program ran and has no
    unique index: [init_db] uses it as it is, so that the same record
    imported twice is stored twice, and a second run of [main] that is given
    the same response stores every one of its records a second time. *)
Lemma existing_collection_stores_a_record_twice :
  let r := SampleStore.price "A" (Sample.jan 3) 11 in
  let col := init_db (Some SampleRun.legacy) in
  let twice := snd (import_bulk (snd (import_bulk col [r] true)) [r] true) in
  let now := at_time (Sample.jan 5) 22 0 in
  let tickers := ["AAPL"%string; "NEW"%string] in
  let run1 := main (Some SampleRun.legacy) SampleRun.provider Sample.nyse now tickers in
  let run2 := main (Some (snd run1)) SampleRun.provider Sample.nyse now tickers in
  List.length (filter (same_key r) (documents twice)) = 2%nat
  /\ fst run1 = Ok tt /\ fst run2 = Ok tt
  /\ map doc_key (documents (snd run2))
     = [("AAPL"%string, Sample.jan 2); ("NEW"%string, Sample.jan 2);
        ("AAPL"%string, Sample.jan 3); ("NEW"%string, Sample.jan 3);
        ("AAPL"%string, Sample.jan 2); ("NEW"%string, Sample.jan 2);
        ("AAPL"%string, Sample.jan 3); ("NEW"%string, Sample.jan 3)].
Proof. vm_compute. repeat split. Qed.

Example first_run_stores_the_response :
  main None SampleRun.provider Sample.nyse (at_time (Sample.jan 5) 22 0)
       ["AAPL"%string; "NEW"%string]
  = (Ok tt,
     {| documents :=
          [ record_of SampleFrames.aapl_open SampleFrames.aapl_high SampleFrames.aapl_low
                      SampleFrames.aapl_adj_close "AAPL" (Sample.jan 2);
            record_of SampleFrames.newco SampleFrames.newco SampleFrames.newco
                      SampleFrames.newco "NEW" (Sample.jan 2);
            record_of SampleFrames.aapl_open SampleFrames.aapl_high SampleFrames.aapl_low
                      SampleFrames.aapl_adj_close "AAPL" (Sample.jan 3);
            record_of SampleFrames.newco SampleFrames.newco SampleFrames.newco
                      SampleFrames.newco "NEW" (Sample.jan 3) ];
        unique_ticker_date := true |}).
Proof. vm_compute. reflexivity. Qed.

Example importing_twice_is_refused :
  import_bulk SampleRun.first_run
              [record_of SampleFrames.aapl_open SampleFrames.aapl_high
                         SampleFrames.aapl_low SampleFrames.aapl_adj_close
                         "AAPL" (Sample.jan 3)]
              true
  = (Raise DocumentInsertError, SampleRun.first_run).
Proof. vm_compute. reflexivity. Qed.

(** * Further properties of the code *)

(** ** The oracle at the edges of its ranges *)

(** X1: [last_trading_day] raises exactly when the current year has had no
    session up to today, or has had one only, which has not closed before
    [now]; what it raises is an [IndexError]. *)
Theorem last_trading_day_raises_iff (cal : Calendar) (now : Z) (e : exn) :
  last_trading_day cal now = Raise e <->
  e = IndexError
  /\ (year_sessions cal now = []
      \/ exists s, year_sessions cal now = [s] /\ now <= market_close cal s).
Proof.
  destruct (last_trading_day_cases cal now) as [H0 [H1 [H2 H3]]].
  destruct (snoc_cases (year_sessions cal now)) as [N | [[x Ex] | [l [y [x Ex]]]]].
  - rewrite (H0 N). split.
    + intros E. inversion E. auto.
    + intros [-> _]. reflexivity.
  - destruct (Z.lt_ge_cases (market_close cal x) now) as [C | C].
    + rewrite (H1 [] x Ex C). split; [discriminate |].
      intros [_ [N | [s [Es Hs]]]].
      * rewrite N in Ex. discriminate.
      * rewrite Ex in Es. inversion Es. subst. lia.
    + rewrite (H2 x Ex C). split.
      * intros E. inversion E. split; [reflexivity |]. right. exists x. auto.
      * intros [-> _]. reflexivity.
  - assert (Hno : ~ (year_sessions cal now = []
                     \/ exists s, year_sessions cal now = [s] /\ now <= market_close cal s)).
    { rewrite Ex. intros [N | [s [Es _]]].
      - destruct l; discriminate.
      - destruct l as [| a [| b l]]; discriminate. }
    destruct (Z.lt_ge_cases (market_close cal x) now) as [C | C].
    + assert (Ex' : year_sessions cal now = (l ++ [y]) ++ [x])
        by (rewrite <- app_assoc; exact Ex).
      rewrite (H1 _ x Ex' C). split; [discriminate | tauto].
    + rewrite (H3 l y x Ex C). split; [discriminate | tauto].
Qed.

(** X2: what [last_trading_day] returns is the close of a session of the
    current year, on or before today, and of the last or the last but one of
    them: no two sessions lie between it and today. *)
Theorem last_trading_day_stays_in_year (cal : Calendar) (now : Z) (t : Timestamp) :
  last_trading_day cal now = Ok t ->
  exists s,
    t = Ts (market_close cal s) /\ is_session cal s = true
    /\ new_year now <= s <= date_of now
    /\ forall s1 s2, is_session cal s1 = true -> is_session cal s2 = true ->
                     s < s1 -> s1 < s2 -> s2 <= date_of now -> False.
Proof.
  destruct (last_trading_day_cases cal now) as [H0 [H1 [H2 H3]]].
  pose proof (year_sessions_sorted cal now) as Hsorted.
  assert (Hlast : forall l x, year_sessions cal now = l ++ [x] ->
            forall s', is_session cal s' = true -> x < s' -> s' <= date_of now -> False).
  { intros l x E s' Ss' G T.
    assert (Hx : In x (year_sessions cal now))
      by (rewrite E; apply in_or_app; right; now left).
    apply in_year_sessions in Hx.
    assert (Hs' : In s' (year_sessions cal now))
      by (apply in_year_sessions; split; [lia | assumption]).
    rewrite E in Hs', Hsorted. apply in_app_or in Hs'.
    destruct Hs' as [Hs' | [<- | []]]; [| lia].
    pose proof (sorted_snoc _ _ _ Hsorted Hs'). lia. }
  intros E.
  destruct (snoc_cases (year_sessions cal now)) as [N | [[x Ex] | [l [y [x Ex]]]]].
  - rewrite (H0 N) in E. discriminate.
  - assert (Hx : In x (year_sessions cal now)) by (rewrite Ex; now left).
    apply in_year_sessions in Hx.
    destruct (Z.lt_ge_cases (market_close cal x) now) as [C | C].
    + rewrite (H1 [] x Ex C) in E. inversion E. exists x.
      repeat split; try tauto.
      intros s1 s2 S1 S2 G1 G2 T2. apply (Hlast [] x Ex s1 S1 G1). lia.
    + rewrite (H2 x Ex C) in E. discriminate.
  - assert (Ex' : year_sessions cal now = (l ++ [y]) ++ [x])
      by (rewrite <- app_assoc; exact Ex).
    assert (Hx : In x (year_sessions cal now))
      by (rewrite Ex'; apply in_or_app; right; now left).
    assert (Hy : In y (year_sessions cal now))
      by (rewrite Ex'; apply in_or_app; left; apply in_or_app; right; now left).
    apply in_year_sessions in Hx. apply in_year_sessions in Hy.
    destruct (Z.lt_ge_cases (market_close cal x) now) as [C | C].
    + rewrite (H1 _ x Ex' C) in E. inversion E. exists x.
      repeat split; try tauto.
      intros s1 s2 S1 S2 G1 G2 T2. apply (Hlast _ x Ex' s1 S1 G1). lia.
    + rewrite (H3 l y x Ex C) in E. inversion E. exists y.
      repeat split; try tauto.
      intros s1 s2 S1 S2 G1 G2 T2.
      assert (Hs1 : In s1 (year_sessions cal now))
        by (apply in_year_sessions; split; [lia | assumption]).
      rewrite Ex' in Hs1. apply in_app_or in Hs1.
      destruct Hs1 as [Hs1 | [<- | []]].
      * rewrite Ex' in Hsorted. apply sorted_app in Hsorted.
        destruct Hsorted as [Hsorted _]. apply in_app_or in Hs1.
        destruct Hs1 as [Hs1 | [<- | []]]; [| lia].
        pose proof (sorted_snoc _ _ _ Hsorted Hs1). lia.
      * apply (Hlast _ x Ex' s2 S2 G2 T2).
Qed.

Lemma last_trading_day_stays_in_year_witness :
  exists s,
    Ts (at_time (Sample.jan 4) 21 0) = Ts (market_close Sample.nyse s)
    /\ is_session Sample.nyse s = true
    /\ new_year (at_time (Sample.jan 5) 15 0) <= s <= date_of (at_time (Sample.jan 5) 15 0)
    /\ forall s1 s2, is_session Sample.nyse s1 = true -> is_session Sample.nyse s2 = true ->
                     s < s1 -> s1 < s2 -> s2 <= date_of (at_time (Sample.jan 5) 15 0) ->
                     False.
Proof.
  apply (last_trading_day_stays_in_year Sample.nyse (at_time (Sample.jan 5) 15 0)).
  vm_compute. reflexivity.
Defined.

Lemma weekday_shift (d q : Z) : weekday (d + 7 * q) = weekday d.
Proof. unfold weekday. replace (d + 7 * q + 3) with (d + 3 + q * 7) by lia.
       apply Z.mod_add. lia. Qed.

Lemma rollforward_shift (d q : Z) : rollforward (d + 7 * q) = rollforward d + 7 * q.
Proof.
  unfold rollforward. rewrite weekday_shift.
  destruct (weekday d =? 5); [lia |]. destruct (weekday d =? 6); lia.
Qed.

Lemma date_range_B_shift (n : nat) (d q : Z) :
  date_range_B (d + 7 * q) n = map (fun t => t + midnight (7 * q)) (date_range_B d n).
Proof.
  revert d. induction n as [| n IH]; intros d; cbn [date_range_B map]; [reflexivity |].
  rewrite rollforward_shift.
  replace (rollforward d + 7 * q + 1) with (rollforward d + 1 + 7 * q) by lia.
  rewrite IH. f_equal. unfold midnight, seconds_per_day. lia.
Qed.

Lemma index_neg_map {A B : Type} (f : A -> B) (l : list A) (k : nat) (x : A) :
  index_neg l k = Ok x -> index_neg (map f l) k = Ok (f x).
Proof.
  unfold index_neg. rewrite length_map.
  destruct (List.length l <? k)%nat; [discriminate |].
  rewrite nth_error_map.
  destruct (nth_error l (List.length l - k)); [| discriminate].
  intros E. inversion E. reflexivity.
Qed.

(** The window ends at most thirteen days after the date. *)
Lemma window_last_bound (d b : Z) :
  index_neg (date_range_B d 10) 1 = Ok (midnight b) -> b <= d + 13.
Proof.
  assert (Hr : forall r, 0 <= r < 7 ->
            exists k, index_neg (date_range_B r 10) 1 = Ok (midnight (r + k)) /\ k <= 13).
  { intros r Hr.
    assert (r = 0 \/ r = 1 \/ r = 2 \/ r = 3 \/ r = 4 \/ r = 5 \/ r = 6)
      as [-> | [-> | [-> | [-> | [-> | [-> | ->]]]]]] by lia.
    - exists 13. split; [reflexivity | lia].
    - exists 13. split; [reflexivity | lia].
    - exists 13. split; [reflexivity | lia].
    - exists 12. split; [reflexivity | lia].
    - exists 11. split; [reflexivity | lia].
    - exists 13. split; [reflexivity | lia].
    - exists 13. split; [reflexivity | lia]. }
  pose proof (Z.div_mod d 7 ltac:(lia)) as Ed.
  pose proof (Z.mod_pos_bound d 7 ltac:(lia)) as Bd.
  destruct (Hr (d mod 7) Bd) as [k [Ek Hk]].
  replace d with (d mod 7 + 7 * (d / 7)) at 1 by lia.
  rewrite date_range_B_shift.
  rewrite (index_neg_map (fun t => t + midnight (7 * (d / 7))) _ 1 _ Ek).
  intros E.
  assert (E' : midnight (d mod 7 + k) + midnight (7 * (d / 7)) = midnight b)
    by congruence.
  unfold midnight, seconds_per_day in E'. lia.
Qed.

(** X3: [next_trading_day] never raises and looks thirteen days ahead at
    most: it returns midnight of a session within the thirteen days after the
    date, or [NaT]; a session that comes later is not found. *)
Theorem next_trading_day_within_13_days (cal : Calendar) (d : Z) :
  next_trading_day cal d = Ok NaT
  \/ exists n, next_trading_day cal d = Ok (Ts (midnight n))
               /\ is_session cal n = true /\ d < n <= d + 13.
Proof.
  destruct (next_trading_day_cases cal d) as [[E _] | [n [E [W [G [S _]]]]]];
    [now left | right].
  exists n. split; [assumption |]. split; [assumption |]. split; [assumption |].
  apply in_window_iff in W. destruct W as [b [Eb Rb]].
  pose proof (window_last_bound d b Eb). lia.
Qed.

Example next_trading_day_after_a_long_closure :
  next_trading_day SampleStore.closed_fortnight (Sample.jan 5) = Ok NaT
  /\ is_session SampleStore.closed_fortnight (Sample.jan 22) = true.
Proof. vm_compute. split; reflexivity. Qed.

(** ** The planner and the last known dates *)

Lemma fold_max_spec (xs : list Z) (x : Z) :
  let m := fold_left Z.max xs x in
  (m = x \/ In m xs) /\ x <= m /\ forall y, In y xs -> y <= m.
Proof.
  revert x. induction xs as [| a xs IH]; intros x; simpl.
  - repeat split; [now left | lia | contradiction].
  - destruct (IH (Z.max x a)) as [Hin [Hle Hall]].
    repeat split.
    + destruct Hin as [E | Hin]; [| now right; right].
      rewrite E. destruct (Z.max_spec x a) as [[_ ->] | [_ ->]]; auto.
    + lia.
    + intros y [<- | Hy]; [lia | now apply Hall].
Qed.

Lemma get_last_update_spec (i : string) (db : Collection) (d : Z) :
  get_last_update i db = Some d <->
  (exists doc, In doc (documents db) /\ doc_ticker doc = i /\ doc_date doc = d)
  /\ forall doc, In doc (documents db) -> doc_ticker doc = i -> doc_date doc <= d.
Proof.
  unfold get_last_update.
  set (ds := map doc_date
                 (filter (fun doc => String.eqb (doc_ticker doc) i) (documents db))).
  assert (Hds : forall x, In x ds <->
             exists doc, In doc (documents db) /\ doc_ticker doc = i /\ doc_date doc = x).
  { intros x. unfold ds. rewrite in_map_iff. split.
    - intros [doc [E H]]. apply filter_In in H. destruct H as [H T].
      apply String.eqb_eq in T. exists doc. auto.
    - intros [doc [H [T E]]]. exists doc. split; [assumption |].
      apply filter_In. split; [assumption | now apply String.eqb_eq]. }
  destruct ds as [| x xs] eqn:E.
  - split; [discriminate |]. intros [[doc H] _]. exfalso.
    apply (proj2 (Hds (doc_date doc))). exists doc. tauto.
  - destruct (fold_max_spec xs x) as [Hin [Hle Hall]]. split.
    + intros S. inversion S as [S']. rewrite S'. split.
      * apply Hds. rewrite <- S'. destruct Hin as [-> | Hin]; [now left | now right].
      * intros doc Hdoc T.
        assert (In (doc_date doc) (x :: xs)) as [<- | H]
            by (apply Hds; exists doc; auto).
        -- rewrite <- S'. exact Hle.
        -- rewrite <- S'. now apply Hall.
    + intros [[doc [Hdoc [T Ed]]] Hmax]. f_equal. apply Z.le_antisymm.
      * destruct Hin as [-> | Hin].
        -- destruct (proj1 (Hds x) (or_introl eq_refl)) as [doc' [H1 [H2 <-]]].
           now apply Hmax.
        -- destruct (proj1 (Hds _) (or_intror Hin)) as [doc' [H1 [H2 H3]]].
           rewrite <- H3. now apply Hmax.
      * assert (In d (x :: xs)) as [<- | H] by (apply Hds; exists doc; auto).
        -- exact Hle.
        -- now apply Hall.
Qed.

(** X4: [get_last_update] returns the date of a document of the ticker that
    no document of the ticker exceeds, and returns a date whenever the ticker
    has a document. *)
Theorem get_last_update_is_greatest_date (i : string) (db : Collection) (d : Z) :
  get_last_update i db = Some d <->
  (exists doc, In doc (documents db) /\ doc_ticker doc = i /\ doc_date doc = d)
  /\ forall doc, In doc (documents db) -> doc_ticker doc = i -> doc_date doc <= d.
Proof. apply get_last_update_spec. Qed.

Lemma fold_dict_append_same (k : Z) (l v : list string) :
  fold_left (fun ticker_dict item => dict_append ticker_dict (fst item) (snd item))
            (map (fun i => (k, i)) l) [(k, v)]
  = [(k, v ++ l)].
Proof.
  revert v. induction l as [| i l IH]; intros v; simpl.
  - now rewrite app_nil_r.
  - rewrite Z.eqb_refl. rewrite IH. now rewrite <- app_assoc.
Qed.

Lemma for_each_collect_absent (cal : Calendar) (now : Z) (db : Collection)
      (tickers : list string) (acc : list (Z * string)) :
  (forall i, In i tickers -> get_last_update i db = None) ->
  for_each tickers (collect_date cal now db) acc
  = Ok (acc ++ map (fun i => (BEGINNING_DATE, i)) tickers).
Proof.
  revert acc. induction tickers as [| i tickers IH]; intros acc H; simpl.
  - now rewrite app_nil_r.
  - unfold collect_date at 1. rewrite (H i (or_introl eq_refl)). simpl.
    rewrite IH by (intros j Hj; apply H; now right).
    now rewrite <- app_assoc.
Qed.

Lemma planner_on_absent
      (cal : Calendar) (now : Z) (db : Collection) (tickers : list string) :
  (forall i, In i tickers -> get_last_update i db = None) ->
  calculate_downloads cal now db tickers
  = Ok match tickers with
       | [] => []
       | _ :: _ => [ {| batch_date := BEGINNING_DATE; batch_tickers := tickers |} ]
       end.
Proof.
  intros H. unfold calculate_downloads.
  rewrite (for_each_collect_absent cal now db tickers [] H). simpl.
  destruct tickers as [| i tickers]; [reflexivity |].
  unfold group_by_date. simpl.
  rewrite (fold_dict_append_same BEGINNING_DATE tickers [i]). reflexivity.
Qed.

(** X5: when no listed ticker has a document in the store, the plan is one
    batch that starts at [BEGINNING_DATE] and holds the whole ticker list in
    its order (no batch for an empty list); the calendar is not consulted, so
    this holds where [last_trading_day] would raise. *)
Theorem planner_backfills_everything_on_empty_store
        (cal : Calendar) (now : Z) (db : Collection) (tickers : list string) :
  (forall i, In i tickers -> get_last_update i db = None) ->
  calculate_downloads cal now db tickers
  = Ok match tickers with
       | [] => []
       | _ :: _ => [ {| batch_date := BEGINNING_DATE; batch_tickers := tickers |} ]
       end.
Proof. apply planner_on_absent. Qed.

Lemma planner_backfills_everything_on_empty_store_witness :
  calculate_downloads Sample.nyse (at_time (Sample.jan 1) 15 0)
                      {| documents := []; unique_ticker_date := true |}
                      ["B"%string; "A"%string; "B"%string]
  = Ok [ {| batch_date := BEGINNING_DATE;
            batch_tickers := ["B"%string; "A"%string; "B"%string] |} ].
Proof.
  apply (planner_backfills_everything_on_empty_store
           Sample.nyse (at_time (Sample.jan 1) 15 0)
           {| documents := []; unique_ticker_date := true |}
           ["B"%string; "A"%string; "B"%string]).
  intros i _. reflexivity.
Defined.

Lemma collect_date_raises (cal : Calendar) (now : Z) (db : Collection)
      (i : string) (acc : list (Z * string)) (e : exn) :
  collect_date cal now db i acc = Raise e <->
  last_trading_day cal now = Raise e /\ get_last_update i db <> None.
Proof.
  unfold collect_date, anything_to_download.
  destruct (get_last_update i db) as [lu |].
  - destruct (next_trading_day_returns cal lu) as [t ->]. simpl.
    destruct (last_trading_day cal now) as [last | e']; simpl.
    + destruct (ts_lt t last); split; try discriminate; intros [H _]; discriminate.
    + split.
      * intros E. inversion E. split; [reflexivity | discriminate].
      * intros [E _]. inversion E. reflexivity.
  - split; [discriminate | intros [_ H]; congruence].
Qed.

(** X6: [calculate_downloads] raises exactly when [last_trading_day] raises
    and some listed ticker has a document in the store; it raises what
    [last_trading_day] raised. *)
Theorem planner_raises_iff
        (cal : Calendar) (now : Z) (db : Collection) (tickers : list string) (e : exn) :
  calculate_downloads cal now db tickers = Raise e <->
  last_trading_day cal now = Raise e
  /\ exists i, In i tickers /\ get_last_update i db <> None.
Proof.
  unfold calculate_downloads.
  assert (H : forall acc,
             for_each tickers (collect_date cal now db) acc = Raise e <->
             last_trading_day cal now = Raise e
             /\ exists i, In i tickers /\ get_last_update i db <> None).
  { induction tickers as [| i tickers IH]; intros acc; simpl.
    - split; [discriminate | intros [_ [i [[] _]]]].
    - destruct (collect_date cal now db i acc) as [acc' | e'] eqn:C; simpl.
      + rewrite IH. split.
        * intros [L [j [Hj N]]]. split; [assumption |]. exists j. auto.
        * intros [L [j [[<- | Hj] N]]].
          -- assert (collect_date cal now db i acc = Raise e) as C'
                 by (apply collect_date_raises; auto).
             congruence.
          -- split; [assumption |]. exists j. auto.
      + apply collect_date_raises in C. destruct C as [L N]. split.
        * intros E. inversion E. subst. split; [assumption |]. exists i. auto.
        * intros [L' _]. congruence. }
  destruct (for_each tickers (collect_date cal now db) []) as [l | e'] eqn:F; simpl.
  - split; [discriminate |]. intros C. apply (H []) in C. congruence.
  - rewrite <- (H []). rewrite F. split; intros E; inversion E; reflexivity.
Qed.

Example planner_raises_on_the_first_session_of_the_year :
  calculate_downloads Sample.nyse (at_time (Sample.jan 2) 15 0) SampleStore.store
                      ["N"%string; "A"%string]
  = Raise IndexError.
Proof. vm_compute. reflexivity. Qed.

Lemma count_entries (sd : string -> option Z) (tickers : list string)
      (d : Z) (i : string) :
  sd i = Some d ->
  count_occ string_dec (map snd (filter (fun p => fst p =? d) (entries_of sd tickers))) i
  = count_occ string_dec tickers i.
Proof.
  intros Hi. unfold entries_of.
  induction tickers as [| j tickers IH]; simpl; [reflexivity |].
  rewrite filter_app, map_app, count_occ_app, IH.
  destruct (string_dec j i) as [-> | N].
  - rewrite Hi. simpl. rewrite Z.eqb_refl. simpl.
    destruct (string_dec i i); [reflexivity | congruence].
  - destruct (sd j) as [d' |]; simpl; [| reflexivity].
    destruct (d' =? d); simpl; [| reflexivity].
    destruct (string_dec j i); [congruence | reflexivity].
Qed.

(** X7: the plan does not merge repeated tickers: a ticker is in its batch
    as many times as it is in the ticker list. *)
Theorem plan_keeps_repeated_tickers
        (cal : Calendar) (now : Z) (db : Collection) (tickers : list string)
        (plan : list SyncBatch) (b : SyncBatch) (i : string) :
  calculate_downloads cal now db tickers = Ok plan ->
  In b plan -> In i (batch_tickers b) ->
  count_occ string_dec (batch_tickers b) i = count_occ string_dec tickers i.
Proof.
  intros P Hb Hi. destruct (plan_shape _ _ _ _ _ P) as [_ [_ Ht]].
  rewrite (Ht b Hb) in *. apply count_entries.
  apply in_filter_date, in_entries_of in Hi. tauto.
Qed.

Lemma plan_keeps_repeated_tickers_witness :
  count_occ string_dec
            (batch_tickers {| batch_date := Sample.jan 3;
                              batch_tickers := ["A"%string; "C"%string; "A"%string] |})
            "A"%string
  = count_occ string_dec ["A"%string; "B"%string; "C"%string; "A"%string] "A"%string.
Proof.
  apply (plan_keeps_repeated_tickers
           Sample.nyse (at_time (Sample.jan 5) 22 0) SampleStore.store
           ["A"%string; "B"%string; "C"%string; "A"%string]
           [ {| batch_date := Sample.jan 3;
                batch_tickers := ["A"%string; "C"%string; "A"%string] |};
             {| batch_date := Sample.jan 4; batch_tickers := ["B"%string] |} ]).
  - vm_compute. reflexivity.
  - simpl. auto.
  - simpl. auto.
Defined.

(** ** Responses at their edges *)

Lemma loc_raises_KeyError {K : Type} (eqb : K -> K -> bool) (cols : list (K * Column))
      (d : Z) (k : K) (e : exn) :
  loc eqb cols d k = Raise e -> e = KeyError.
Proof.
  induction cols as [| [k' c] cols IH]; simpl.
  - intros E. inversion E. reflexivity.
  - destruct (eqb k' k); [discriminate | exact IH].
Qed.

Lemma multi_record_raises (cols : list ((string * string) * Column))
      (d : Z) (t : string) (e : exn) :
  multi_record cols d t = Raise e -> e = KeyError.
Proof.
  unfold multi_record.
  destruct (loc label_eqb cols d ("Open"%string, t)) as [o | e1] eqn:E1; simpl;
    [| intros E; inversion E; subst; now apply loc_raises_KeyError in E1].
  destruct (loc label_eqb cols d ("High"%string, t)) as [h | e2] eqn:E2; simpl;
    [| intros E; inversion E; subst; now apply loc_raises_KeyError in E2].
  destruct (loc label_eqb cols d ("Low"%string, t)) as [l | e3] eqn:E3; simpl;
    [| intros E; inversion E; subst; now apply loc_raises_KeyError in E3].
  destruct (loc label_eqb cols d ("Adj Close"%string, t)) as [c | e4] eqn:E4; simpl;
    [discriminate | intros E; inversion E; subst; now apply loc_raises_KeyError in E4].
Qed.

Lemma multi_record_missing (cols : list ((string * string) * Column))
      (d : Z) (t f : string) :
  In f price_fields ->
  loc label_eqb cols d (f, t) = Raise KeyError ->
  multi_record cols d t = Raise KeyError.
Proof.
  intros Hf Hm.
  destruct (multi_record cols d t) as [r | e] eqn:E.
  - exfalso. unfold multi_record in E. unfold price_fields in Hf. simpl in Hf.
    destruct (loc label_eqb cols d ("Open"%string, t)) as [o | e1] eqn:E1;
      [| discriminate].
    destruct (loc label_eqb cols d ("High"%string, t)) as [h | e2] eqn:E2;
      [| discriminate].
    destruct (loc label_eqb cols d ("Low"%string, t)) as [l | e3] eqn:E3;
      [| discriminate].
    destruct (loc label_eqb cols d ("Adj Close"%string, t)) as [c | e4] eqn:E4;
      [| discriminate].
    destruct Hf as [<- | [<- | [<- | [<- | []]]]]; congruence.
  - now rewrite (multi_record_raises _ _ _ _ E).
Qed.

Lemma for_each_raises_at {A S : Type} (l : list A) (body : A -> S -> result S)
      (x0 : A) (E : exn) (s : S) :
  (forall x s' e, body x s' = Raise e -> e = E) ->
  (forall s', body x0 s' = Raise E) ->
  In x0 l -> for_each l body s = Raise E.
Proof.
  intros Hall Hx0. revert s. induction l as [| x l IH]; intros s Hin; simpl.
  - contradiction.
  - destruct (body x s) as [s' | e] eqn:B; simpl.
    + destruct Hin as [-> | Hin]; [| now apply IH].
      rewrite Hx0 in B. discriminate.
    + now rewrite (Hall _ _ _ B).
Qed.

Lemma for_each_cons {A S : Type} (x : A) (l : list A) (body : A -> S -> result S) (s : S) :
  for_each (x :: l) body s = (s' <- body x s ;; for_each l body s').
Proof. reflexivity. Qed.

(** X8: when the response is keyed by (field, instrument), has a row, and
    lacks one of the four price columns of a requested ticker,
    [data_download] raises a [KeyError]: no record is returned for any
    ticker of the batch. *)
Theorem missing_column_raises_KeyError
        (yf_download : Provider) (t : string) (rest : list string) (start : Z)
        (d0 : Z) (idx : list Z) (multi : list ((string * string) * Column))
        (t' f : string) :
  yf_download (t :: rest) start
  = Ok {| index := d0 :: idx; columns := MultiIndex multi |} ->
  In t' (t :: rest) ->
  In f price_fields ->
  loc label_eqb multi d0 (f, t') = Raise KeyError ->
  data_download yf_download (t :: rest) start = Raise KeyError.
Proof.
  intros Hdf Ht' Hf Hm. unfold data_download. rewrite Hdf.
  unfold normalize. cbn [index columns]. unfold unique. cbn [unique_from existsb].
  rewrite for_each_cons.
  rewrite (for_each_raises_at (t :: rest) _ t' KeyError []); [reflexivity | | | assumption].
  - intros x s' e B.
    destruct (multi_record multi d0 x) as [r | e'] eqn:M; simpl in B; [discriminate |].
    inversion B. subst. now apply multi_record_raises in M.
  - intros s'. now rewrite (multi_record_missing multi d0 t' f Hf Hm).
Qed.

Lemma missing_column_raises_KeyError_witness :
  data_download (fun _ _ => Ok SampleFrames.multi_aapl)
                ["AAPL"%string; "NEW"%string] (Sample.jan 2)
  = Raise KeyError.
Proof.
  apply (missing_column_raises_KeyError
           (fun _ _ => Ok SampleFrames.multi_aapl) "AAPL" ["NEW"%string] (Sample.jan 2)
           (Sample.jan 2) [Sample.jan 3]
           [(("Adj Close"%string, "AAPL"%string), SampleFrames.aapl_adj_close);
            (("Close"%string, "AAPL"%string), SampleFrames.aapl_close);
            (("High"%string, "AAPL"%string), SampleFrames.aapl_high);
            (("Low"%string, "AAPL"%string), SampleFrames.aapl_low);
            (("Open"%string, "AAPL"%string), SampleFrames.aapl_open)]
           "NEW" "Low").
  - reflexivity.
  - simpl. auto.
  - unfold price_fields. simpl. auto.
  - reflexivity.
Defined.



Lemma keys_of_records (cell : string -> string -> Column)
      (tickers : list string) (dates : list Z) :
  map doc_key
      (flat_map
         (fun d => map (fun t => record_of (cell "Open"%string t) (cell "High"%string t)
                                           (cell "Low"%string t)
                                           (cell "Adj Close"%string t) t d)
                       tickers)
         dates)
  = flat_map (fun d => map (fun t => (t, d)) tickers) dates.
Proof.
  induction dates as [| d dates IH]; simpl; [reflexivity |].
  rewrite map_app, IH, map_map. reflexivity.
Qed.

Lemma NoDup_pairs (tickers : list string) (dates : list Z) :
  NoDup tickers -> NoDup dates ->
  NoDup (flat_map (fun d => map (fun t => (t, d)) tickers) dates).
Proof.
  intros Ht Hd. induction Hd as [| d dates Hd Hnd IH]; simpl; [constructor |].
  apply NoDup_app.
  - clear - Ht. induction Ht as [| t tickers Hin Hnd IH]; simpl; constructor.
    + rewrite in_map_iff. intros [t' [E H']]. inversion E. subst. contradiction.
    + exact IH.
  - exact IH.
  - intros [t d'] H1 H2. apply in_map_iff in H1. destruct H1 as [t1 [E1 _]].
    inversion E1. subst. apply in_flat_map in H2. destruct H2 as [d2 [Hd2 H2]].
    apply in_map_iff in H2. destruct H2 as [t2 [E2 _]]. inversion E2. subst.
    contradiction.
Qed.

(** X10: for a ticker list without repetition and a response keyed by
    (field, instrument) that carries the columns of every ticker, no two
    records that [data_download] returns have the same ticker and date. *)
Theorem records_have_distinct_keys
        (yf_download : Provider) (t : string) (rest : list string) (start : Z)
        (idx : list Z) (multi : list ((string * string) * Column))
        (cell : string -> string -> Column) :
  NoDup (t :: rest) ->
  yf_download (t :: rest) start = Ok {| index := idx; columns := MultiIndex multi |} ->
  (forall f t' d, In f price_fields -> In t' (t :: rest) ->
                  loc label_eqb multi d (f, t') = Ok (cell f t' d)) ->
  exists records,
    data_download yf_download (t :: rest) start = Ok (Some records)
    /\ NoDup (map doc_key records).
Proof.
  intros Hnd Hdf Hcols. eexists. split.
  - unfold data_download. rewrite Hdf.
    rewrite (normalize_multi (t :: rest) idx multi cell Hcols). reflexivity.
  - rewrite keys_of_records. apply NoDup_pairs; [assumption | apply unique_NoDup].
Qed.

Lemma records_have_distinct_keys_witness :
  exists records,
    data_download (fun _ _ => Ok SampleFrames.multi_two)
                  ["AAPL"%string; "NEW"%string] (Sample.jan 2) = Ok (Some records)
    /\ NoDup (map doc_key records).
Proof.
  apply (records_have_distinct_keys
           (fun _ _ => Ok SampleFrames.multi_two) "AAPL" ["NEW"%string] (Sample.jan 2)
           [Sample.jan 2; Sample.jan 3] SampleFrames.multi_two_cols
           SampleFrames.two_cell).
  - repeat constructor; simpl; intuition discriminate.
  - reflexivity.
  - intros f t' d Hf Ht. unfold price_fields in Hf. simpl in Hf, Ht.
    destruct Ht as [<- | [<- | []]];
      destruct Hf as [<- | [<- | [<- | [<- | []]]]]; reflexivity.
Defined.

(** ** Imports and runs *)

Lemma insert_documents_raises (unique complete : bool) (docs stored : list PriceRecord)
      (e : exn) :
  insert_documents unique complete docs stored = Raise e ->
  e = DocumentInsertError /\ complete = true.
Proof.
  revert stored. induction docs as [| d docs IH]; intros stored; simpl; [discriminate |].
  destruct (unique && existsb (same_key d) stored).
  - destruct complete; [| apply IH]. intros E. inversion E. auto.
  - apply IH.
Qed.

(** The request brings keys that are pairwise distinct and not stored. *)
Lemma insert_documents_complete (docs stored stored' : list PriceRecord) :
  insert_documents true true docs stored = Ok stored' <->
  (NoDup (map doc_key docs)
   /\ forall r, In r docs -> ~ In (doc_key r) (map doc_key stored))
  /\ stored' = stored ++ docs.
Proof.
  revert stored. induction docs as [| d docs IH]; intros stored; simpl.
  - rewrite app_nil_r. split.
    + intros E. inversion E. repeat split; [constructor | contradiction].
    + intros [_ ->]. reflexivity.
  - destruct (existsb (same_key d) stored) eqn:Ex.
    + split; [discriminate |]. intros [[_ H] _]. exfalso.
      apply (H d (or_introl eq_refl)). now apply existsb_same_key.
    + assert (Hd : ~ In (doc_key d) (map doc_key stored)).
      { intros Hin. apply existsb_same_key in Hin. congruence. }
      rewrite IH. rewrite <- app_assoc. simpl. split.
      * intros [[Hnd Hfresh] ->]. split; [| reflexivity]. split.
        -- constructor; [| assumption]. intros Hin.
           apply in_map_iff in Hin. destruct Hin as [r [Er Hr]].
           apply (Hfresh r Hr). rewrite map_app, in_app_iff. right.
           simpl. left. now symmetry.
        -- intros r [<- | Hr]; [assumption |]. intros Hin.
           apply (Hfresh r Hr). rewrite map_app, in_app_iff. now left.
      * intros [[Hnd Hfresh] ->]. split; [| reflexivity].
        inversion Hnd as [| ? ? Hd' Hnd']; subst. split; [assumption |].
        intros r Hr Hin. rewrite map_app, in_app_iff in Hin. simpl in Hin.
        destruct Hin as [Hin | [E | []]].
        -- apply (Hfresh r (or_intror Hr) Hin).
        -- apply Hd'. rewrite E. now apply in_map.
Qed.

Lemma import_bulk_complete (col : Collection) (docs : list PriceRecord) :
  unique_ticker_date col = true ->
  (NoDup (map doc_key docs)
   /\ (forall r, In r docs -> ~ In (doc_key r) (map doc_key (documents col))) ->
   import_bulk col docs true
   = (Ok tt, {| documents := documents col ++ docs; unique_ticker_date := true |}))
  /\ (~ (NoDup (map doc_key docs)
         /\ forall r, In r docs -> ~ In (doc_key r) (map doc_key (documents col))) ->
      import_bulk col docs true = (Raise DocumentInsertError, col)).
Proof.
  intros Hu. unfold import_bulk. rewrite Hu.
  destruct (insert_documents true true docs (documents col)) as [stored | e] eqn:E.
  - apply insert_documents_complete in E. destruct E as [F ->]. split.
    + reflexivity.
    + intros N. contradiction.
  - destruct (insert_documents_raises _ _ _ _ _ E) as [-> _]. split.
    + intros F.
      assert (insert_documents true true docs (documents col)
              = Ok (documents col ++ docs)) as E'
          by (apply insert_documents_complete; auto).
      congruence.
    + reflexivity.
Qed.

(** X11: on a collection with the unique index, [import_bulk] with
    [halt_on_error] imports all of a request or nothing: when the keys of the
    request are pairwise distinct and none is stored, its documents are
    appended in their order; otherwise it raises [DocumentInsertError] and
    leaves the collection as it was. *)
Theorem import_bulk_is_all_or_nothing (col : Collection) (docs : list PriceRecord) :
  unique_ticker_date col = true ->
  (NoDup (map doc_key docs)
   /\ (forall r, In r docs -> ~ In (doc_key r) (map doc_key (documents col))) ->
   import_bulk col docs true
   = (Ok tt, {| documents := documents col ++ docs; unique_ticker_date := true |}))
  /\ (~ (NoDup (map doc_key docs)
         /\ forall r, In r docs -> ~ In (doc_key r) (map doc_key (documents col))) ->
      import_bulk col docs true = (Raise DocumentInsertError, col)).
Proof. apply import_bulk_complete. Qed.

Lemma import_bulk_is_all_or_nothing_witness :
  (NoDup (map doc_key [SampleStore.price "A" (Sample.jan 3) 11])
   /\ (forall r, In r [SampleStore.price "A" (Sample.jan 3) 11] ->
                 ~ In (doc_key r) (map doc_key (documents SampleStore.store))) ->
   import_bulk SampleStore.store [SampleStore.price "A" (Sample.jan 3) 11] true
   = (Ok tt, {| documents := documents SampleStore.store
                             ++ [SampleStore.price "A" (Sample.jan 3) 11];
                unique_ticker_date := true |}))
  /\ (~ (NoDup (map doc_key [SampleStore.price "A" (Sample.jan 3) 11])
         /\ forall r, In r [SampleStore.price "A" (Sample.jan 3) 11] ->
                      ~ In (doc_key r) (map doc_key (documents SampleStore.store))) ->
      import_bulk SampleStore.store [SampleStore.price "A" (Sample.jan 3) 11] true
      = (Raise DocumentInsertError, SampleStore.store)).
Proof.
  apply (import_bulk_is_all_or_nothing
           SampleStore.store [SampleStore.price "A" (Sample.jan 3) 11]).
  reflexivity.
Defined.

Lemma insert_documents_extends (unique complete : bool) (docs stored stored' : list PriceRecord) :
  insert_documents unique complete docs stored = Ok stored' ->
  exists added, stored' = stored ++ added /\ incl added docs.
Proof.
  revert stored. induction docs as [| d docs IH]; intros stored; simpl.
  - intros E. inversion E. exists []. split; [now rewrite app_nil_r | apply incl_refl].
  - destruct (unique && existsb (same_key d) stored).
    + destruct complete; [discriminate |]. intros E.
      destruct (IH _ E) as [added [-> Hi]]. exists added. split; [reflexivity |].
      now apply incl_tl.
    + intros E. destruct (IH _ E) as [added [-> Hi]]. exists (d :: added).
      split; [now rewrite <- app_assoc |].
      intros x [<- | Hx]; [now left | right; now apply Hi].
Qed.

Lemma import_bulk_extends (col : Collection) (docs : list PriceRecord) (halt : bool) :
  exists added,
    documents (snd (import_bulk col docs halt)) = documents col ++ added
    /\ unique_ticker_date (snd (import_bulk col docs halt)) = unique_ticker_date col.
Proof.
  unfold import_bulk.
  destruct (insert_documents (unique_ticker_date col) halt docs (documents col))
    as [stored | e] eqn:E; simpl.
  - destruct (insert_documents_extends _ _ _ _ _ E) as [added [-> _]]. eauto.
  - exists []. now rewrite app_nil_r.
Qed.

Lemma import_entries_extends (yf : Provider) (plan : list SyncBatch) (col : Collection) :
  exists added,
    documents (snd (import_entries yf plan col)) = documents col ++ added
    /\ unique_ticker_date (snd (import_entries yf plan col)) = unique_ticker_date col.
Proof.
  revert col. induction plan as [| entry plan IH]; intros col; simpl.
  - exists []. now rewrite app_nil_r.
  - destruct (data_download yf (batch_tickers entry) (batch_date entry))
      as [[records |] | e]; simpl; try (exists []; now rewrite app_nil_r).
    destruct (import_bulk_extends col records true) as [a1 [E1 U1]].
    destruct (import_bulk col records true) as [[[] | e] col']; simpl in *.
    + destruct (IH col') as [a2 [E2 U2]]. exists (a1 ++ a2).
      rewrite E2, E1, U2, U1. now rewrite app_assoc.
    + exists a1. auto.
Qed.

(** X12: a run only appends: the documents that the collection held before
    [main] are, in their order and unchanged, the first documents it holds
    after, whether the run ends well or raises; and the run neither adds nor
    drops the unique index. *)
Theorem main_only_appends (server : option Collection) (yf : Provider)
        (cal : Calendar) (now : Z) (tickers : list string) :
  exists added,
    documents (snd (main server yf cal now tickers))
    = documents (init_db server) ++ added
    /\ unique_ticker_date (snd (main server yf cal now tickers))
       = unique_ticker_date (init_db server).
Proof.
  unfold main.
  destruct (calculate_downloads cal now (init_db server) tickers) as [plan | e]; simpl.
  - apply import_entries_extends.
  - exists []. now rewrite app_nil_r.
Qed.

(** X13: the last known date cannot be imported again: on a collection with
    the unique index, a request that holds a record of a ticker on the date
    that [get_last_update] returns for it raises [DocumentInsertError], and
    none of its records is stored. *)
Theorem last_known_date_is_refused
        (col : Collection) (i : string) (lu : Z)
        (records : list PriceRecord) (r : PriceRecord) :
  unique_ticker_date col = true ->
  get_last_update i col = Some lu ->
  In r records -> doc_ticker r = i -> doc_date r = lu ->
  import_bulk col records true = (Raise DocumentInsertError, col).
Proof.
  intros Hu L Hr Ti Di.
  apply (proj2 (import_bulk_complete col records Hu)).
  intros [_ Hfresh]. apply (Hfresh r Hr).
  apply get_last_update_spec in L. destruct L as [[doc [Hdoc [Td Dd]]] _].
  apply in_map_iff. exists doc. split; [| assumption].
  unfold doc_key. congruence.
Qed.

Lemma last_known_date_is_refused_witness :
  import_bulk SampleStore.store
              [SampleStore.price "B" (Sample.jan 4) 21; SampleStore.price "B" (Sample.jan 5) 22]
              true
  = (Raise DocumentInsertError, SampleStore.store).
Proof.
  apply (last_known_date_is_refused
           SampleStore.store "B" (Sample.jan 4)
           [SampleStore.price "B" (Sample.jan 4) 21; SampleStore.price "B" (Sample.jan 5) 22]
           (SampleStore.price "B" (Sample.jan 4) 21)).
  - reflexivity.
  - reflexivity.
  - simpl. auto.
  - reflexivity.
  - reflexivity.
Defined.

Lemma import_entries_app (yf : Provider) (pre rest : list SyncBatch) (col : Collection) :
  import_entries yf (pre ++ rest) col
  = match import_entries yf pre col with
    | (Ok _, col') => import_entries yf rest col'
    | (Raise e, col') => (Raise e, col')
    end.
Proof.
  revert col. induction pre as [| b pre IH]; intros col; simpl; [reflexivity |].
  destruct (data_download yf (batch_tickers b) (batch_date b)) as [[records |] | e];
    try reflexivity.
  destruct (import_bulk col records true) as [[[] | e] col']; [apply IH | reflexivity].
Qed.

(** X14: the loop of [main] stops at the first batch that fails: the batches
    after it are not attempted, and what the batches before it imported
    stays in the collection. *)
Theorem run_stops_at_first_failure
        (yf : Provider) (pre rest : list SyncBatch) (col col' : Collection) (e : exn) :
  import_entries yf pre col = (Raise e, col') ->
  import_entries yf (pre ++ rest) col = (Raise e, col').
Proof. intros H. rewrite import_entries_app, H. reflexivity. Qed.

(** X15: a download that raises ends the run: [data_download] returns
    [None], the import of [None] raises a [TypeError], the collection keeps
    what the batches before imported, and no later batch is fetched. *)
Theorem failed_download_aborts_run
        (yf : Provider) (pre rest : list SyncBatch) (b : SyncBatch)
        (col col1 : Collection) (e : exn) :
  import_entries yf pre col = (Ok tt, col1) ->
  yf (batch_tickers b) (batch_date b) = Raise e ->
  import_entries yf (pre ++ b :: rest) col = (Raise TypeError, col1).
Proof.
  intros Hpre Hyf. rewrite import_entries_app, Hpre. simpl.
  unfold data_download. destruct (batch_tickers b); [reflexivity |].
  rewrite Hyf. reflexivity.
Qed.

(** X16: a batch whose response has no row imports nothing and the run goes
    on with the next batch, whatever the columns of the response. *)
Theorem empty_response_is_skipped
        (yf : Provider) (b : SyncBatch) (rest : list SyncBatch) (col : Collection)
        (t : string) (ts : list string) (cols : ColumnIndex) :
  batch_tickers b = t :: ts ->
  yf (t :: ts) (batch_date b) = Ok {| index := []; columns := cols |} ->
  import_entries yf (b :: rest) col = import_entries yf rest col.
Proof.
  intros Hb Hyf.
  assert (E : import_bulk col [] true = (Ok tt, col))
    by (unfold import_bulk; simpl; now destruct col).
  assert (D : data_download yf (batch_tickers b) (batch_date b) = Ok (Some [])).
  { unfold data_download. rewrite Hb, Hyf. unfold normalize. destruct cols; reflexivity. }
  cbn [import_entries]. rewrite D, E. reflexivity.
Qed.

(** X17: [init_db] adds the unique index only to a collection that it
    creates: on a collection that existed without it, every import appends
    all of its documents, those with a stored key as well. *)
Theorem existing_collection_without_index_takes_duplicates
        (col : Collection) (docs : list PriceRecord) (halt : bool) :
  unique_ticker_date col = false ->
  import_bulk (init_db (Some col)) docs halt
  = (Ok tt, {| documents := documents col ++ docs; unique_ticker_date := false |}).
Proof.
  intros Hu. unfold import_bulk, init_db. rewrite Hu.
  assert (H : forall stored, insert_documents false halt docs stored = Ok (stored ++ docs)).
  { induction docs as [| d docs IH]; intros stored; simpl.
    - now rewrite app_nil_r.
    - rewrite IH. now rewrite <- app_assoc. }
  now rewrite H.
Qed.

Lemma run_stops_at_first_failure_witness :
  import_entries (fun _ _ => Ok SampleFrames.multi_aapl)
                 ([ {| batch_date := Sample.jan 2;
                       batch_tickers := ["AAPL"%string; "NEW"%string] |} ]
                  ++ [ {| batch_date := Sample.jan 3; batch_tickers := ["AAPL"%string] |} ])
                 SampleStore.store
  = (Raise KeyError, SampleStore.store).
Proof.
  apply (run_stops_at_first_failure
           (fun _ _ => Ok SampleFrames.multi_aapl)
           [ {| batch_date := Sample.jan 2;
                batch_tickers := ["AAPL"%string; "NEW"%string] |} ]
           [ {| batch_date := Sample.jan 3; batch_tickers := ["AAPL"%string] |} ]
           SampleStore.store SampleStore.store KeyError).
  vm_compute. reflexivity.
Defined.

Lemma failed_download_aborts_run_witness :
  import_entries (fun _ d => if d =? Sample.jan 2 then Ok SampleFrames.multi_aapl
                             else Raise IndexError)
                 ([ {| batch_date := Sample.jan 2; batch_tickers := ["AAPL"%string] |} ]
                  ++ {| batch_date := Sample.jan 3; batch_tickers := ["NEW"%string] |}
                  :: [ {| batch_date := Sample.jan 2; batch_tickers := ["AAPL"%string] |} ])
                 (init_db None)
  = (Raise TypeError,
     snd (import_entries (fun _ _ => Ok SampleFrames.multi_aapl)
                         [ {| batch_date := Sample.jan 2;
                              batch_tickers := ["AAPL"%string] |} ]
                         (init_db None))).
Proof.
  apply (failed_download_aborts_run
           (fun _ d => if d =? Sample.jan 2 then Ok SampleFrames.multi_aapl
                       else Raise IndexError)
           [ {| batch_date := Sample.jan 2; batch_tickers := ["AAPL"%string] |} ]
           [ {| batch_date := Sample.jan 2; batch_tickers := ["AAPL"%string] |} ]
           {| batch_date := Sample.jan 3; batch_tickers := ["NEW"%string] |}
           (init_db None) _ IndexError).
  - vm_compute. reflexivity.
  - reflexivity.
Defined.

Lemma empty_response_is_skipped_witness :
  import_entries (fun _ _ => Ok {| index := []; columns := Index [] |})
                 [ {| batch_date := Sample.jan 2; batch_tickers := ["AAPL"%string] |};
                   {| batch_date := Sample.jan 3; batch_tickers := ["NEW"%string] |} ]
                 SampleStore.store
  = import_entries (fun _ _ => Ok {| index := []; columns := Index [] |})
                   [ {| batch_date := Sample.jan 3; batch_tickers := ["NEW"%string] |} ]
                   SampleStore.store.
Proof.
  apply (empty_response_is_skipped
           (fun _ _ => Ok {| index := []; columns := Index [] |})
           {| batch_date := Sample.jan 2; batch_tickers := ["AAPL"%string] |}
           [ {| batch_date := Sample.jan 3; batch_tickers := ["NEW"%string] |} ]
           SampleStore.store "AAPL" [] (Index [])).
  - reflexivity.
  - reflexivity.
Defined.

Lemma existing_collection_without_index_takes_duplicates_witness :
  import_bulk (init_db (Some {| documents := [SampleStore.price "A" (Sample.jan 3) 11];
                                unique_ticker_date := false |}))
              [SampleStore.price "A" (Sample.jan 3) 11] true
  = (Ok tt,
     {| documents := documents {| documents := [SampleStore.price "A" (Sample.jan 3) 11];
                                  unique_ticker_date := false |}
                     ++ [SampleStore.price "A" (Sample.jan 3) 11];
        unique_ticker_date := false |}).
Proof.
  apply (existing_collection_without_index_takes_duplicates
           {| documents := [SampleStore.price "A" (Sample.jan 3) 11];
              unique_ticker_date := false |}
           [SampleStore.price "A" (Sample.jan 3) 11] true).
  reflexivity.
Defined.

(** X18: a batch that lists a ticker twice cannot be imported: with a
    response keyed by (field, instrument) that has a row, [data_download]
    returns two records with the same ticker and date, and on a collection
    with the unique index the import raises [DocumentInsertError] and stores
    nothing. *)
Theorem repeated_ticker_is_refused
        (yf_download : Provider) (t : string) (rest : list string) (start : Z)
        (d0 : Z) (idx : list Z) (multi : list ((string * string) * Column))
        (cell : string -> string -> Column) (col : Collection) :
  In t rest ->
  yf_download (t :: rest) start
  = Ok {| index := d0 :: idx; columns := MultiIndex multi |} ->
  (forall f t' d, In f price_fields -> In t' (t :: rest) ->
                  loc label_eqb multi d (f, t') = Ok (cell f t' d)) ->
  unique_ticker_date col = true ->
  exists records,
    data_download yf_download (t :: rest) start = Ok (Some records)
    /\ import_bulk col records true = (Raise DocumentInsertError, col).
Proof.
  intros Hin Hdf Hcols Hu. eexists. split.
  - unfold data_download. rewrite Hdf.
    rewrite (normalize_multi (t :: rest) (d0 :: idx) multi cell Hcols). reflexivity.
  - apply (proj2 (import_bulk_complete col _ Hu)).
    intros [Hnd _]. rewrite keys_of_records in Hnd.
    unfold unique in Hnd. cbn [unique_from existsb flat_map] in Hnd.
    apply NoDup_app_remove_r in Hnd. apply NoDup_map_inv in Hnd.
    inversion Hnd. contradiction.
Qed.

Lemma repeated_ticker_is_refused_witness :
  exists records,
    data_download (fun _ _ => Ok SampleFrames.multi_aapl)
                  ["AAPL"%string; "AAPL"%string] (Sample.jan 2) = Ok (Some records)
    /\ import_bulk (init_db None) records true
       = (Raise DocumentInsertError, init_db None).
Proof.
  apply (repeated_ticker_is_refused
           (fun _ _ => Ok SampleFrames.multi_aapl) "AAPL" ["AAPL"%string] (Sample.jan 2)
           (Sample.jan 2) [Sample.jan 3]
           [(("Adj Close"%string, "AAPL"%string), SampleFrames.aapl_adj_close);
            (("Close"%string, "AAPL"%string), SampleFrames.aapl_close);
            (("High"%string, "AAPL"%string), SampleFrames.aapl_high);
            (("Low"%string, "AAPL"%string), SampleFrames.aapl_low);
            (("Open"%string, "AAPL"%string), SampleFrames.aapl_open)]
           SampleFrames.two_cell (init_db None)).
  - simpl. auto.
  - reflexivity.
  - intros f t' d Hf Ht. unfold price_fields in Hf. simpl in Hf, Ht.
    destruct Ht as [<- | [<- | []]];
      destruct Hf as [<- | [<- | [<- | [<- | []]]]]; reflexivity.
  - reflexivity.
Defined.

(** X19: the first run, on a server without the collection, with a ticker
    list without repetition and a response keyed by (field, instrument) that
    carries the columns of every ticker: [main] asks for one download from
    [BEGINNING_DATE], ends well and stores one document per pair of a date of
    the response and a ticker; after it the last known date of every listed
    ticker is the latest date of the response. *)
Theorem first_run_stores_the_whole_response
        (yf : Provider) (cal : Calendar) (now : Z) (t : string) (rest : list string)
        (idx : list Z) (multi : list ((string * string) * Column))
        (cell : string -> string -> Column) :
  NoDup (t :: rest) ->
  yf (t :: rest) BEGINNING_DATE = Ok {| index := idx; columns := MultiIndex multi |} ->
  (forall f t' d, In f price_fields -> In t' (t :: rest) ->
                  loc label_eqb multi d (f, t') = Ok (cell f t' d)) ->
  exists records,
    main None yf cal now (t :: rest)
    = (Ok tt, {| documents := records; unique_ticker_date := true |})
    /\ map (fun r => (doc_date r, doc_ticker r)) records
       = list_prod (unique idx) (t :: rest)
    /\ forall t' d, In t' (t :: rest) -> In d idx ->
         exists lu,
           get_last_update t' {| documents := records; unique_ticker_date := true |}
           = Some lu
           /\ In lu idx /\ d <= lu.
Proof.
  intros Hnd Hdf Hcols.
  set (records :=
         flat_map
           (fun d => map (fun t' => record_of (cell "Open"%string t') (cell "High"%string t')
                                              (cell "Low"%string t')
                                              (cell "Adj Close"%string t') t' d)
                         (t :: rest))
           (unique idx)).
  assert (Hrec : forall r, In r records <->
             exists d t', In d idx /\ In t' (t :: rest)
                          /\ r = record_of (cell "Open"%string t') (cell "High"%string t')
                                           (cell "Low"%string t')
                                           (cell "Adj Close"%string t') t' d).
  { intros r. unfold records. rewrite in_flat_map. split.
    - intros [d [Hd Hr]]. apply (proj1 (in_unique _ _)) in Hd. apply in_map_iff in Hr.
      destruct Hr as [t' [<- Ht']]. exists d, t'. auto.
    - intros [d [t' [Hd [Ht' ->]]]]. exists d.
      split; [now apply (proj2 (in_unique _ _)) |].
      apply in_map_iff. exists t'. auto. }
  exists records. split; [| split].
  - unfold main. cbn [init_db].
    rewrite (planner_on_absent cal now _ (t :: rest)) by (intros i _; reflexivity).
    cbn [import_entries batch_tickers batch_date].
    unfold data_download. rewrite Hdf.
    rewrite (normalize_multi (t :: rest) idx multi cell Hcols). cbn [bind].
    fold records.
    rewrite (proj1 (import_bulk_complete
                      {| documents := []; unique_ticker_date := true |}
                      records eq_refl)); [reflexivity |].
    split.
    + unfold records. rewrite keys_of_records.
      apply NoDup_pairs; [assumption | apply unique_NoDup].
    + intros r _ [].
  - apply pairs_of_records.
  - intros t' d Ht' Hd.
    destruct (get_last_update t' {| documents := records; unique_ticker_date := true |})
      as [lu |] eqn:L.
    + exists lu. split; [reflexivity |].
      apply get_last_update_spec in L. destruct L as [[doc [Hdoc [Td Dd]]] Hmax].
      cbn [documents] in Hdoc, Hmax. split.
      * apply Hrec in Hdoc. destruct Hdoc as [d1 [t1 [Hd1 [_ ->]]]].
        simpl in Dd. now subst.
      * apply (Hmax (record_of (cell "Open"%string t') (cell "High"%string t')
                               (cell "Low"%string t')
                               (cell "Adj Close"%string t') t' d));
          [| reflexivity].
        apply Hrec. exists d, t'. auto.
    + exfalso. pose proof (proj1 (get_last_update_none _ _) L) as L'.
      apply (L' (record_of (cell "Open"%string t') (cell "High"%string t')
                          (cell "Low"%string t')
                          (cell "Adj Close"%string t') t' d)); [| reflexivity].
      cbn [documents]. apply Hrec. exists d, t'. auto.
Qed.

Lemma first_run_stores_the_whole_response_witness :
  exists records,
    main None (fun _ _ => Ok SampleFrames.multi_two) Sample.nyse
         (at_time (Sample.jan 5) 22 0) ["AAPL"%string; "NEW"%string]
    = (Ok tt, {| documents := records; unique_ticker_date := true |})
    /\ map (fun r => (doc_date r, doc_ticker r)) records
       = list_prod (unique [Sample.jan 2; Sample.jan 3]) ["AAPL"%string; "NEW"%string]
    /\ forall t' d, In t' ["AAPL"%string; "NEW"%string] ->
                    In d [Sample.jan 2; Sample.jan 3] ->
         exists lu,
           get_last_update t' {| documents := records; unique_ticker_date := true |}
           = Some lu
           /\ In lu [Sample.jan 2; Sample.jan 3] /\ d <= lu.
Proof.
  apply (first_run_stores_the_whole_response
           (fun _ _ => Ok SampleFrames.multi_two) Sample.nyse
           (at_time (Sample.jan 5) 22 0) "AAPL" ["NEW"%string]
           [Sample.jan 2; Sample.jan 3] SampleFrames.multi_two_cols
           SampleFrames.two_cell).
  - repeat constructor; simpl; intuition discriminate.
  - reflexivity.
  - intros f t' d Hf Ht. unfold price_fields in Hf. simpl in Hf, Ht.
    destruct Ht as [<- | [<- | []]];
      destruct Hf as [<- | [<- | [<- | [<- | []]]]]; reflexivity.
Defined.

Lemma entries_of_none (sd : string -> option Z) (tickers : list string) :
  (forall i, In i tickers -> sd i = None) -> entries_of sd tickers = [].
Proof.
  intros H. unfold entries_of. induction tickers as [| i tickers IH]; simpl; [reflexivity |].
  rewrite (H i (or_introl eq_refl)). simpl. apply IH. intros j Hj. apply H. now right.
Qed.

(** X20: when the planner finds every listed ticker up to date, [main] ends
    well without a download and leaves the collection as [init_db] gave
    it. *)
Theorem up_to_date_run_changes_nothing
        (server : option Collection) (yf : Provider) (cal : Calendar) (now : Z)
        (tickers : list string) :
  (forall i, In i tickers -> start_date cal now (init_db server) i = Ok None) ->
  calculate_downloads cal now (init_db server) tickers = Ok []
  /\ main server yf cal now tickers = (Ok tt, init_db server).
Proof.
  intros H.
  assert (P : calculate_downloads cal now (init_db server) tickers = Ok []).
  { unfold calculate_downloads.
    rewrite for_each_collect_ok by (intros i Hi; rewrite (H i Hi); eauto).
    rewrite entries_of_none; [reflexivity |].
    intros i Hi. unfold planned_start. now rewrite (H i Hi). }
  split; [exact P |]. unfold main. rewrite P. reflexivity.
Qed.

Lemma up_to_date_run_changes_nothing_witness :
  calculate_downloads Sample.nyse (at_time (Sample.jan 5) 15 0)
                      (init_db (Some SampleStore.store)) ["B"%string; "D"%string]
  = Ok []
  /\ main (Some SampleStore.store) (fun _ _ => Raise IndexError) Sample.nyse
          (at_time (Sample.jan 5) 15 0) ["B"%string; "D"%string]
     = (Ok tt, init_db (Some SampleStore.store)).
Proof.
  apply (up_to_date_run_changes_nothing
           (Some SampleStore.store) (fun _ _ => Raise IndexError) Sample.nyse
           (at_time (Sample.jan 5) 15 0) ["B"%string; "D"%string]).
  intros i Hi. simpl in Hi.
  repeat (destruct Hi as [<- | Hi]; [vm_compute; reflexivity |]). contradiction.
Defined.

(** ** The ticker universe *)

Example tickers_of_the_sample :
  get_tickers_list SampleUniverse.order SampleUniverse.inclusion SampleUniverse.exclusion
                   SampleUniverse.r1000 SampleUniverse.dji SampleUniverse.n100
                   SampleUniverse.picks
  = ["BRK-A"%string; "ZZZ"%string; "BF-B"%string; "IBM"%string; "AAPL"%string;
     "GOOG"%string; "QQQ"%string].
Proof. vm_compute. reflexivity. Qed.

Lemma list_remove_count (i t : string) (l : list string) :
  count_occ string_dec
            match list_remove i l with Some removed => removed | None => l end t
  = (count_occ string_dec l t - if string_dec i t then 1 else 0)%nat.
Proof.
  induction l as [| y l IH]; simpl.
  - destruct (string_dec i t); reflexivity.
  - destruct (String.eqb_spec y i) as [-> | N].
    + destruct (string_dec i t); simpl; lia.
    + destruct (list_remove i l) as [l' |]; simpl in *.
      * destruct (string_dec y t) as [-> | Ny]; [| exact IH].
        destruct (string_dec i t); [congruence |]. rewrite IH. lia.
      * destruct (string_dec y t) as [-> | Ny]; [| exact IH].
        destruct (string_dec i t); [congruence | lia].
Qed.

Lemma remove_loop_count (exclusion_tickers all_tickers : list string) (t : string) :
  count_occ string_dec
            (fold_left (fun all_tickers i =>
                          match list_remove i all_tickers with
                          | Some removed => removed
                          | None => all_tickers
                          end)
                       exclusion_tickers all_tickers) t
  = (count_occ string_dec all_tickers t - count_occ string_dec exclusion_tickers t)%nat.
Proof.
  revert all_tickers.
  induction exclusion_tickers as [| i ex IH]; intros all_tickers; simpl; [lia |].
  rewrite IH, list_remove_count. destruct (string_dec i t); lia.
Qed.

(** X21: the exclusion loop takes one occurrence out of the list for each
    entry of the exclusion list: a ticker is in the result as many times as
    it is in the inclusion file and the index tables together, less the
    number of times it is in the exclusion list. *)
Theorem exclusion_removes_one_occurrence_each
        (order : list string -> list string) (inclusion exclusion : option string)
        (r1000 dji n100 : list string) (picks : option (list string)) (t : string) :
  count_occ string_dec
            (get_tickers_list order inclusion exclusion r1000 dji n100 picks) t
  = (count_occ string_dec
               (read_file order inclusion
                ++ get_exchanges_tickers order r1000 dji n100 picks) t
     - count_occ string_dec (read_file order exclusion) t)%nat.
Proof. unfold get_tickers_list. apply remove_loop_count. Qed.

(** X22: a ticker that is both in the inclusion file and in an index table
    is still in the result when the exclusion list names it once: only its
    first occurrence is removed. *)
Theorem twice_listed_ticker_survives_exclusion
        (order : list string -> list string) (inclusion exclusion : option string)
        (r1000 dji n100 : list string) (picks : option (list string)) (t : string) :
  In t (read_file order inclusion) ->
  In t (get_exchanges_tickers order r1000 dji n100 picks) ->
  (count_occ string_dec (read_file order exclusion) t <= 1)%nat ->
  In t (get_tickers_list order inclusion exclusion r1000 dji n100 picks).
Proof.
  intros H1 H2 H3. apply (count_occ_In string_dec).
  unfold get_tickers_list. rewrite remove_loop_count, count_occ_app.
  apply (count_occ_In string_dec) in H1. apply (count_occ_In string_dec) in H2. lia.
Qed.

Lemma twice_listed_ticker_survives_exclusion_witness :
  In "AAPL"%string
     (get_tickers_list SampleUniverse.order SampleUniverse.inclusion
                       SampleUniverse.exclusion SampleUniverse.r1000 SampleUniverse.dji
                       SampleUniverse.n100 SampleUniverse.picks).
Proof.
  apply (twice_listed_ticker_survives_exclusion
           SampleUniverse.order SampleUniverse.inclusion SampleUniverse.exclusion
           SampleUniverse.r1000 SampleUniverse.dji SampleUniverse.n100
           SampleUniverse.picks "AAPL").
  - vm_compute. auto.
  - vm_compute. auto.
  - vm_compute. lia.
Defined.

Lemma str_replace_removes (a b : Ascii.ascii) (s : string) :
  a <> b -> has_char a (str_replace a b s) = false.
Proof.
  intros N. induction s as [| c s IH]; simpl; [reflexivity |].
  rewrite IH, orb_false_r.
  destruct (Ascii.eqb_spec c a) as [-> | Nc].
  - apply Ascii.eqb_neq. congruence.
  - now apply Ascii.eqb_neq.
Qed.

Lemma remove_loop_incl (exclusion_tickers all_tickers : list string) (t : string) :
  In t (fold_left (fun all_tickers i =>
                     match list_remove i all_tickers with
                     | Some removed => removed
                     | None => all_tickers
                     end)
                  exclusion_tickers all_tickers) ->
  In t all_tickers.
Proof.
  intros H. apply (count_occ_In string_dec) in H. rewrite remove_loop_count in H.
  apply (count_occ_In string_dec). lia.
Qed.

(** X23: no ticker of the result holds a dot: every symbol read from the
    files and the tables has its dots turned into dashes, and the exclusion
    loop only removes. *)
Theorem tickers_hold_no_dot
        (order : list string -> list string) (inclusion exclusion : option string)
        (r1000 dji n100 : list string) (picks : option (list string)) (t : string) :
  In t (get_tickers_list order inclusion exclusion r1000 dji n100 picks) ->
  has_char "." t = false.
Proof.
  intros H. unfold get_tickers_list in H. apply remove_loop_incl in H.
  apply in_app_or in H. destruct H as [H | H].
  - unfold read_file in H. destruct inclusion as [text |]; [| contradiction].
    apply in_map_iff in H. destruct H as [s [<- _]].
    apply str_replace_removes. discriminate.
  - unfold get_exchanges_tickers in H.
    apply in_map_iff in H. destruct H as [s [<- _]].
    apply str_replace_removes. discriminate.
Qed.

Lemma tickers_hold_no_dot_witness : has_char "." "BF-B" = false.
Proof.
  apply (tickers_hold_no_dot
           SampleUniverse.order SampleUniverse.inclusion SampleUniverse.exclusion
           SampleUniverse.r1000 SampleUniverse.dji SampleUniverse.n100
           SampleUniverse.picks "BF-B").
  vm_compute. auto 10.
Defined.
